(** * A shallow embedding of the todo application (todos/models.py, todos/views.py)

    The five request handlers of [todos/views.py] are embedded as computations
    in a small state-and-exception monad over the database table of
    [todos/models.py] and the per-request message storage. *)

From Stdlib Require Import ZArith NArith Ascii String.
From stdpp Require Import gmap strings list fin_maps sorting.

Local Open Scope Z_scope.

(** ** Python text *)

Module Py.

(** A Python [str] is a sequence of Unicode code points. *)
Abbreviation str := (list N).

(** An ASCII literal of the source, as a [str]. *)
Definition lit (s : string) : str := N_of_ascii <$> list_ascii_of_string s.

(** [str.isspace] on one code point: the whitespace table of the
    language (bidirectional class WS, B or S, or category Zs). *)
Definition isspace (c : N) : bool :=
  (bool_decide (c ∈ [0x09; 0x0A; 0x0B; 0x0C; 0x0D; 0x1C; 0x1D; 0x1E; 0x1F;
                     0x20; 0x85; 0xA0; 0x1680; 0x2028; 0x2029; 0x202F;
                     0x205F; 0x3000]%N))
  || ((0x2000 <=? c)%N && (c <=? 0x200A)%N).

Fixpoint lstrip (s : str) : str :=
  match s with
  | c :: s' => if isspace c then lstrip s' else s
  | [] => []
  end.

Definition rstrip (s : str) : str := reverse (lstrip (reverse s)).

(** [s.strip()]: whitespace removed at both ends. *)
Definition strip (s : str) : str := rstrip (lstrip s).

(** Truth value of a [str] in a condition: non-empty. *)
Definition truthy (s : str) : bool :=
  match s with [] => false | _ :: _ => true end.

Fixpoint startswith (s p : str) : bool :=
  match p, s with
  | [], _ => true
  | _ :: _, [] => false
  | a :: p', b :: s' => (a =? b)%N && startswith s' p'
  end.

(** [needle in hay] on text: [needle] occurs as a contiguous run. *)
Fixpoint contains (needle hay : str) : bool :=
  startswith hay needle
  || match hay with
     | [] => false
     | _ :: hay' => contains needle hay'
     end.

End Py.

Import Py.

(** ** todos/models.py: the [Todo] model *)

(** Readings of [timezone.now()], in microseconds.  The clock is outside
    the program: a handler takes as arguments the readings made while it
    serves its request, one for each time the clock is read.  Saving an
    existing instance reads it once ([auto_now]); creating one reads it
    twice, first for [created_at] ([auto_now_add]) and then for
    [updated_at] ([auto_now]). *)
Abbreviation Time := Z.

(** A [Todo] instance in memory: the primary key and the four declared
    fields. *)
Record Todo := mkTodo {
  id : Z;
  title : str;
  completed : bool;
  created_at : Time;
  updated_at : Time
}.

(** The columns of a row of the table, stored under its primary key. *)
Record Row := mkRow {
  row_title : str;
  row_completed : bool;
  row_created_at : Time;
  row_updated_at : Time
}.

Global Instance Todo_eq_dec : EqDecision Todo.
Proof. solve_decision. Defined.

Global Instance Row_eq_dec : EqDecision Row.
Proof. solve_decision. Defined.

Definition from_db (entry : Z * Row) : Todo :=
  {| id := entry.1;
     title := row_title entry.2;
     completed := row_completed entry.2;
     created_at := row_created_at entry.2;
     updated_at := row_updated_at entry.2 |}.

Definition to_row (todo : Todo) : Row :=
  {| row_title := title todo;
     row_completed := completed todo;
     row_created_at := created_at todo;
     row_updated_at := updated_at todo |}.

(** The table of todos, keyed by primary key, and the last key handed out
    by the auto-incrementing [id] column. *)
Record Store := mkStore {
  rows : gmap Z Row;
  last_id : Z
}.

Definition empty_store : Store := {| rows := ∅; last_id := 0 |}.

(** [Meta.ordering = ['-created_at']]: [x] may come before [y]. *)
Definition newest_first (x y : Todo) : Prop := created_at y <= created_at x.

Global Instance newest_first_dec x y : Decision (newest_first x y).
Proof. unfold newest_first. apply _. Defined.

(** [Todo.__str__]: the status symbol (a check mark when completed, a
    white circle otherwise), a space, and the title. *)
Definition todo_str (todo : Todo) : str :=
  let status := if completed todo then [0x2713%N] else [0x25CB%N] in
  status ++ lit " " ++ title todo.

(** ** The framework: messages, requests, responses *)

Inductive Level := DEBUG | INFO | SUCCESS | WARNING | ERROR.

Global Instance Level_eq_dec : EqDecision Level.
Proof. solve_decision. Defined.

Record Message := mkMessage {
  level : Level;
  text : str
}.

(** Submitted form data: the pairs in submission order. *)
Abbreviation QueryDict := (list (str * str)).

(** [d.get(key)]: the last value submitted under [key], or [None]. *)
Fixpoint qd_get (d : QueryDict) (key : str) : option str :=
  match d with
  | [] => None
  | (k, v) :: d' =>
      match qd_get d' key with
      | Some v' => Some v'
      | None => if decide (k = key) then Some v else None
      end
  end.

Record HttpRequest := mkRequest {
  method : string;
  POST : QueryDict
}.

Inductive CtxValue :=
| VTodos (todos : list Todo)
| VTodo (todo : Todo)
| VStr (s : str).

Inductive HttpResponse :=
| Render (template : string) (context : list (string * CtxValue))
| Redirect (to : string).

(** What a handler computes with: the table and the messages queued on the
    request being served. *)
Record Env := mkEnv {
  store : Store;
  messages : list Message
}.

(** A handler either returns or raises [Http404]. *)
Inductive Outcome (A : Type) :=
| Done (a : A)
| Http404.
Arguments Done {A} a.
Arguments Http404 {A}.

Definition View (A : Type) : Type := Env → Outcome A * Env.

Global Instance View_ret : MRet View := λ A a env, (Done a, env).

Global Instance View_bind : MBind View := λ A B f m env,
  match m env with
  | (Done a, env') => f a env'
  | (Http404, env') => (Http404, env')
  end.

Definition raise404 {A} : View A := λ env, (Http404, env).

Definition get_store : View Store := λ env, (Done (store env), env).

Definition put_store (s : Store) : View unit := λ env,
  (Done (), {| store := s; messages := messages env |}).

Definition add_message (lvl : Level) (msg : str) : View unit := λ env,
  (Done (), {| store := store env;
               messages := messages env ++ [mkMessage lvl msg] |}).

(** [messages.success(request, msg)] and [messages.error(request, msg)]. *)
Definition messages_success (msg : string) : View unit :=
  add_message SUCCESS (lit msg).
Definition messages_error (msg : string) : View unit :=
  add_message ERROR (lit msg).

(** ** The object manager *)

(** [Todo.objects.all()]: every row, in the model's default ordering.  The
    order among rows of equal [created_at] is the database's choice; here it
    is whatever the sort makes of the table's enumeration. *)
Definition objects_all : View (list Todo) :=
  s ← get_store;
  mret (merge_sort newest_first (from_db <$> map_to_list (rows s))).

(** [Todo.objects.create(title=title)]: the key is the next of the
    sequence, [completed] takes its default, [created_at] is set from the
    reading [now] ([auto_now_add]) and [updated_at] from the reading
    [now'] made after it ([auto_now]). *)
Definition objects_create (now now' : Time) (title : str) : View Todo :=
  s ← get_store;
  let todo := {| id := last_id s + 1; title := title; completed := false;
                 created_at := now; updated_at := now' |} in
  put_store {| rows := <[id todo := to_row todo]> (rows s);
               last_id := id todo |};;
  mret todo.

(** [get_object_or_404(Todo, pk=pk)]. *)
Definition get_object_or_404 (pk : Z) : View Todo :=
  s ← get_store;
  match rows s !! pk with
  | Some row => mret (from_db (pk, row))
  | None => raise404
  end.

(** [todo.save()]: [updated_at] is refreshed ([auto_now]) and every column
    is written under the instance's key. *)
Definition save (now : Time) (todo : Todo) : View Todo :=
  s ← get_store;
  let todo' := {| id := id todo; title := title todo;
                  completed := completed todo;
                  created_at := created_at todo; updated_at := now |} in
  put_store {| rows := <[id todo := to_row todo']> (rows s);
               last_id := last_id s |};;
  mret todo'.

(** [todo.delete()]. *)
Definition delete_instance (todo : Todo) : View unit :=
  s ← get_store;
  put_store {| rows := delete (id todo) (rows s); last_id := last_id s |}.

(** ** todos/views.py

    A handler whose POST branch either returns a redirect or falls through
    to the closing [render] computes [early], the response of the branch if
    it returned. *)

(** Display all todos. *)
Definition todo_list (request : HttpRequest) : View HttpResponse :=
  todos ← objects_all;
  mret (Render "todos/todo_list.html" [("todos", VTodos todos)]).

(** Create a new todo item. *)
Definition todo_create (now now' : Time) (request : HttpRequest)
  : View HttpResponse :=
  early ←
    (if bool_decide (method request = "POST") then
       let title := strip (default (lit "") (qd_get (POST request) (lit "title"))) in
       if truthy title then
         objects_create now now' title;;
         messages_success "Todo created successfully!";;
         mret (Some (Redirect "todos:todo_list"))
       else
         messages_error "Title cannot be empty!";;
         mret None
     else mret None);
  match early with
  | Some response => mret response
  | None =>
      mret (Render "todos/todo_form.html"
              [("form_title", VStr (lit "Create Todo"))])
  end.

(** Update an existing todo item. *)
Definition todo_update (now : Time) (request : HttpRequest) (pk : Z)
  : View HttpResponse :=
  todo ← get_object_or_404 pk;
  early ←
    (if bool_decide (method request = "POST") then
       let title' := strip (default (lit "") (qd_get (POST request) (lit "title"))) in
       let completed' :=
         bool_decide (qd_get (POST request) (lit "completed") = Some (lit "on")) in
       if truthy title' then
         save now {| id := id todo; title := title'; completed := completed';
                     created_at := created_at todo;
                     updated_at := updated_at todo |};;
         messages_success "Todo updated successfully!";;
         mret (Some (Redirect "todos:todo_list"))
       else
         messages_error "Title cannot be empty!";;
         mret None
     else mret None);
  match early with
  | Some response => mret response
  | None =>
      mret (Render "todos/todo_form.html"
              [("todo", VTodo todo); ("form_title", VStr (lit "Edit Todo"))])
  end.

(** Delete a todo item. *)
Definition todo_delete (request : HttpRequest) (pk : Z) : View HttpResponse :=
  todo ← get_object_or_404 pk;
  if bool_decide (method request = "POST") then
    delete_instance todo;;
    messages_success "Todo deleted successfully!";;
    mret (Redirect "todos:todo_list")
  else
    mret (Render "todos/todo_confirm_delete.html" [("todo", VTodo todo)]).

(** Toggle the completed status of a todo. *)
Definition todo_toggle (now : Time) (request : HttpRequest) (pk : Z)
  : View HttpResponse :=
  todo ← get_object_or_404 pk;
  todo ← save now {| id := id todo; title := title todo;
                     completed := negb (completed todo);
                     created_at := created_at todo;
                     updated_at := updated_at todo |};
  add_message SUCCESS
    (lit "Todo marked as "
     ++ (if completed todo then lit "completed" else lit "incomplete")
     ++ lit "!");;
  mret (Redirect "todos:todo_list").

(** ** Serving one request *)

(** The handler runs on the table with an empty message queue; the reply
    is the outcome, the messages it queued, and the table it leaves. *)
Definition serve (view : View HttpResponse) (s : Store)
  : Outcome HttpResponse * Env :=
  view {| store := s; messages := [] |}.

Definition outcome_of (view : View HttpResponse) (s : Store) :=
  (serve view s).1.
Definition notices_of (view : View HttpResponse) (s : Store) :=
  messages (serve view s).2.
Definition store_after (view : View HttpResponse) (s : Store) :=
  store (serve view s).2.

(** The status of the reply: a rendered page is 200, a redirect 302, and
    [Http404] is turned into a 404 page. *)
Definition status_code (o : Outcome HttpResponse) : Z :=
  match o with
  | Done (Render _ _) => 200
  | Done (Redirect _) => 302
  | Http404 => 404
  end.

(** The table is well formed when every key in use was handed out by the
    sequence. *)
Definition store_wf (s : Store) : Prop :=
  ∀ pk, is_Some (rows s !! pk) → pk <= last_id s.

(** No stored title is empty or made of whitespace only. *)
Definition whitespace_only (s : str) : bool := forallb isspace s.

Definition titles_ok (s : Store) : Prop :=
  ∀ pk row, rows s !! pk = Some row →
    row_title row ≠ [] ∧ whitespace_only (row_title row) = false.

(** One request served by one of the five handlers. *)
Inductive step : Store → Store → Prop :=
| step_list request s :
    step s (store_after (todo_list request) s)
| step_create now now' request s :
    step s (store_after (todo_create now now' request) s)
| step_update now request pk s :
    step s (store_after (todo_update now request pk) s)
| step_delete request pk s :
    step s (store_after (todo_delete request pk) s)
| step_toggle now request pk s :
    step s (store_after (todo_toggle now request pk) s).

(** The submitted title, as both forms read it. *)
Definition submitted_title (request : HttpRequest) : str :=
  strip (default (lit "") (qd_get (POST request) (lit "title"))).

(** The submitted checkbox, as the edit form reads it. *)
Definition submitted_completed (request : HttpRequest) : bool :=
  bool_decide (qd_get (POST request) (lit "completed") = Some (lit "on")).

(** A create form carrying one title. *)
Definition create_request (t : str) : HttpRequest :=
  {| method := "POST"; POST := [(lit "title", t)] |}.

(** Creating one todo per submission, in order; a submission is the two
    clock readings of its request and the title posted. *)
Fixpoint create_each (subs : list (Time * Time * str)) (s : Store) : Store :=
  match subs with
  | [] => s
  | (now, now', t) :: rest =>
      create_each rest
        (store_after (todo_create now now' (create_request t)) s)
  end.

(** The instances those submissions make, keys counted from [pk]. *)
Fixpoint created (pk : Z) (subs : list (Time * Time * str)) : list Todo :=
  match subs with
  | [] => []
  | (now, now', t) :: rest =>
      {| id := pk; title := strip t; completed := false;
         created_at := now; updated_at := now' |} :: created (pk + 1) rest
  end.

(** Submissions in the order of the readings that fill [created_at]. *)
Definition older (p q : Time * Time * str) : Prop := p.1.1 < q.1.1.

(** A table holding two todos, for the examples below. *)
Definition two_todos : Store :=
  create_each [(10, 11, lit "  Buy milk  "); (20, 21, lit "Call home")]
    empty_store.

(** A request served by one of the five handlers, with its reply. *)
Inductive served : Store → Outcome HttpResponse * Env → Prop :=
| served_list request s :
    served s (serve (todo_list request) s)
| served_create now now' request s :
    served s (serve (todo_create now now' request) s)
| served_update now request pk s :
    served s (serve (todo_update now request pk) s)
| served_delete request pk s :
    served s (serve (todo_delete request pk) s)
| served_toggle now request pk s :
    served s (serve (todo_toggle now request pk) s).

(** One request served by a clock whose readings are [now] and then
    [now']: create makes both, update and toggle only the first, list and
    delete none. *)
Inductive step_at (now now' : Time) : Store → Store → Prop :=
| step_at_list request s :
    step_at now now' s (store_after (todo_list request) s)
| step_at_create request s :
    step_at now now' s (store_after (todo_create now now' request) s)
| step_at_update request pk s :
    step_at now now' s (store_after (todo_update now request pk) s)
| step_at_delete request pk s :
    step_at now now' s (store_after (todo_delete request pk) s)
| step_at_toggle request pk s :
    step_at now now' s (store_after (todo_toggle now request pk) s).

(** Every stored title is non-empty and is its own [strip]. *)
Definition titles_trimmed (s : Store) : Prop :=
  ∀ pk row, rows s !! pk = Some row →
    row_title row ≠ [] ∧ strip (row_title row) = row_title row.

(** No row was updated before it was created. *)
Definition times_ok (s : Store) : Prop :=
  ∀ pk row, rows s !! pk = Some row → row_created_at row <= row_updated_at row.

(** No row was created after the clock read [now]. *)
Definition created_by (now : Time) (s : Store) : Prop :=
  ∀ pk row, rows s !! pk = Some row → row_created_at row <= now.

(** No two rows were created at the same clock reading. *)
Definition distinct_created (s : Store) : Prop :=
  ∀ pk1 pk2 row1 row2,
    rows s !! pk1 = Some row1 → rows s !! pk2 = Some row2 →
    row_created_at row1 = row_created_at row2 → pk1 = pk2.

(** The edit form submitted with a record's stored values: its title, and
    the checkbox ticked when it is completed. *)
Definition resubmit (row : Row) : HttpRequest :=
  {| method := "POST";
     POST := (lit "title", row_title row)
             :: (if row_completed row then [(lit "completed", lit "on")]
                 else []) |}.

(** What a toggle and a valid edit write over a row. *)
Definition toggled (now : Time) (row : Row) : Row :=
  {| row_title := row_title row;
     row_completed := negb (row_completed row);
     row_created_at := row_created_at row;
     row_updated_at := now |}.

Definition edited (now : Time) (request : HttpRequest) (row : Row) : Row :=
  {| row_title := submitted_title request;
     row_completed := submitted_completed request;
     row_created_at := row_created_at row;
     row_updated_at := now |}.

(** The todos of a rendered list page. *)
Definition listed (o : Outcome HttpResponse) : list Todo :=
  match o with
  | Done (Render _ [(_, VTodos todos)]) => todos
  | _ => []
  end.

(** A change [g] of the row under [pk], seen on the instances. *)
Definition on_instance (g : Row → Row) (pk : Z) (todo : Todo) : Todo :=
  if decide (id todo = pk) then from_db (pk, g (to_row todo)) else todo.

(** ** Text *)

Section text.

Lemma truthy_spec (s : str) : truthy s = true ↔ s ≠ [].
Proof. destruct s; simpl; split; congruence. Qed.

Lemma truthy_false (s : str) : truthy s = false ↔ s = [].
Proof. destruct s; simpl; split; congruence. Qed.

Lemma lstrip_head (s : str) :
  lstrip s = [] ∨ ∃ c s', lstrip s = c :: s' ∧ isspace c = false.
Proof.
  induction s as [|c s IH]; simpl; [by left|].
  destruct (isspace c) eqn:Hc; [done|]. right. by exists c, s.
Qed.

Lemma lstrip_snoc_nonspace (s : str) (c : N) :
  isspace c = false → ∃ s', lstrip (s ++ [c]) = s' ++ [c].
Proof.
  intros Hc. induction s as [|d s IH]; simpl.
  - rewrite Hc. by exists [].
  - destruct (isspace d); [done|]. by exists (d :: s).
Qed.

(** A stripped text that is not empty starts with a character that is not
    whitespace. *)
Lemma strip_head (s : str) :
  strip s = [] ∨ ∃ c s', strip s = c :: s' ∧ isspace c = false.
Proof.
  unfold strip, rstrip.
  destruct (lstrip_head s) as [->|(c & s' & -> & Hc)]; [by left|].
  right. rewrite reverse_cons.
  destruct (lstrip_snoc_nonspace (reverse s') c Hc) as [r ->].
  rewrite reverse_app. simpl. by exists c, (reverse r).
Qed.

Lemma strip_not_whitespace_only (s : str) :
  strip s ≠ [] → whitespace_only (strip s) = false.
Proof.
  intros Hne. destruct (strip_head s) as [?|(c & s' & -> & Hc)]; [done|].
  simpl. by rewrite Hc.
Qed.

End text.

(** ** What each handler does, case by case *)

Section handlers.

Implicit Types (s : Store) (request : HttpRequest) (now pk : Z).

Lemma serve_list request s :
  serve (todo_list request) s =
    (Done (Render "todos/todo_list.html"
             [("todos",
               VTodos (merge_sort newest_first
                         (from_db <$> map_to_list (rows s))))]),
     {| store := s; messages := [] |}).
Proof. reflexivity. Qed.

Lemma serve_create_get now now' request s :
  method request ≠ "POST" →
  serve (todo_create now now' request) s =
    (Done (Render "todos/todo_form.html"
             [("form_title", VStr (lit "Create Todo"))]),
     {| store := s; messages := [] |}).
Proof.
  intros Hm. unfold serve, todo_create.
  rewrite bool_decide_eq_false_2 by done. reflexivity.
Qed.

Lemma serve_create_valid now now' request s :
  method request = "POST" →
  submitted_title request ≠ [] →
  serve (todo_create now now' request) s =
    (Done (Redirect "todos:todo_list"),
     {| store :=
          {| rows := <[last_id s + 1 :=
                         {| row_title := submitted_title request;
                            row_completed := false;
                            row_created_at := now;
                            row_updated_at := now' |}]> (rows s);
             last_id := last_id s + 1 |};
        messages := [mkMessage SUCCESS (lit "Todo created successfully!")] |}).
Proof.
  intros Hm Ht. apply truthy_spec in Ht. unfold serve, todo_create.
  rewrite bool_decide_eq_true_2 by done.
  fold (submitted_title request). rewrite Ht. reflexivity.
Qed.

Lemma serve_create_empty now now' request s :
  method request = "POST" →
  submitted_title request = [] →
  serve (todo_create now now' request) s =
    (Done (Render "todos/todo_form.html"
             [("form_title", VStr (lit "Create Todo"))]),
     {| store := s;
        messages := [mkMessage ERROR (lit "Title cannot be empty!")] |}).
Proof.
  intros Hm Ht. unfold serve, todo_create.
  rewrite bool_decide_eq_true_2 by done.
  fold (submitted_title request). rewrite Ht. reflexivity.
Qed.

Lemma serve_update_missing now request pk s :
  rows s !! pk = None →
  serve (todo_update now request pk) s =
    (Http404, {| store := s; messages := [] |}).
Proof.
  intros Hpk. unfold serve, todo_update, get_object_or_404.
  unfold mbind, View_bind, get_store. simpl. rewrite Hpk. reflexivity.
Qed.

Lemma serve_update_get now request pk s row :
  rows s !! pk = Some row →
  method request ≠ "POST" →
  serve (todo_update now request pk) s =
    (Done (Render "todos/todo_form.html"
             [("todo", VTodo (from_db (pk, row)));
              ("form_title", VStr (lit "Edit Todo"))]),
     {| store := s; messages := [] |}).
Proof.
  intros Hpk Hm. unfold serve, todo_update, get_object_or_404.
  unfold mbind, View_bind, get_store. simpl. rewrite Hpk.
  rewrite bool_decide_eq_false_2 by done. reflexivity.
Qed.

Lemma serve_update_valid now request pk s row :
  rows s !! pk = Some row →
  method request = "POST" →
  submitted_title request ≠ [] →
  serve (todo_update now request pk) s =
    (Done (Redirect "todos:todo_list"),
     {| store :=
          {| rows := <[pk := {| row_title := submitted_title request;
                                row_completed := submitted_completed request;
                                row_created_at := row_created_at row;
                                row_updated_at := now |}]> (rows s);
             last_id := last_id s |};
        messages := [mkMessage SUCCESS (lit "Todo updated successfully!")] |}).
Proof.
  intros Hpk Hm Ht. apply truthy_spec in Ht.
  unfold serve, todo_update, get_object_or_404.
  unfold mbind, View_bind, get_store. simpl. rewrite Hpk.
  rewrite bool_decide_eq_true_2 by done.
  fold (submitted_title request). rewrite Ht. reflexivity.
Qed.

Lemma serve_update_empty now request pk s row :
  rows s !! pk = Some row →
  method request = "POST" →
  submitted_title request = [] →
  serve (todo_update now request pk) s =
    (Done (Render "todos/todo_form.html"
             [("todo", VTodo (from_db (pk, row)));
              ("form_title", VStr (lit "Edit Todo"))]),
     {| store := s;
        messages := [mkMessage ERROR (lit "Title cannot be empty!")] |}).
Proof.
  intros Hpk Hm Ht.
  unfold serve, todo_update, get_object_or_404.
  unfold mbind, View_bind, get_store. simpl. rewrite Hpk.
  rewrite bool_decide_eq_true_2 by done.
  fold (submitted_title request). rewrite Ht. reflexivity.
Qed.

Lemma serve_delete_missing request pk s :
  rows s !! pk = None →
  serve (todo_delete request pk) s =
    (Http404, {| store := s; messages := [] |}).
Proof.
  intros Hpk. unfold serve, todo_delete, get_object_or_404.
  unfold mbind, View_bind, get_store. simpl. rewrite Hpk. reflexivity.
Qed.

Lemma serve_delete_get request pk s row :
  rows s !! pk = Some row →
  method request ≠ "POST" →
  serve (todo_delete request pk) s =
    (Done (Render "todos/todo_confirm_delete.html"
             [("todo", VTodo (from_db (pk, row)))]),
     {| store := s; messages := [] |}).
Proof.
  intros Hpk Hm. unfold serve, todo_delete, get_object_or_404.
  unfold mbind, View_bind, get_store. simpl. rewrite Hpk.
  rewrite bool_decide_eq_false_2 by done. reflexivity.
Qed.

Lemma serve_delete_post request pk s row :
  rows s !! pk = Some row →
  method request = "POST" →
  serve (todo_delete request pk) s =
    (Done (Redirect "todos:todo_list"),
     {| store := {| rows := delete pk (rows s); last_id := last_id s |};
        messages := [mkMessage SUCCESS (lit "Todo deleted successfully!")] |}).
Proof.
  intros Hpk Hm. unfold serve, todo_delete, get_object_or_404.
  unfold mbind, View_bind, get_store. simpl. rewrite Hpk.
  rewrite bool_decide_eq_true_2 by done. reflexivity.
Qed.

Lemma serve_toggle_missing now request pk s :
  rows s !! pk = None →
  serve (todo_toggle now request pk) s =
    (Http404, {| store := s; messages := [] |}).
Proof.
  intros Hpk. unfold serve, todo_toggle, get_object_or_404.
  unfold mbind, View_bind, get_store. simpl. rewrite Hpk. reflexivity.
Qed.

Lemma serve_toggle_found now request pk s row :
  rows s !! pk = Some row →
  serve (todo_toggle now request pk) s =
    (Done (Redirect "todos:todo_list"),
     {| store :=
          {| rows := <[pk := {| row_title := row_title row;
                                row_completed := negb (row_completed row);
                                row_created_at := row_created_at row;
                                row_updated_at := now |}]> (rows s);
             last_id := last_id s |};
        messages :=
          [mkMessage SUCCESS
             (lit "Todo marked as "
              ++ (if negb (row_completed row)
                  then lit "completed" else lit "incomplete")
              ++ lit "!")] |}).
Proof.
  intros Hpk. unfold serve, todo_toggle, get_object_or_404.
  unfold mbind, View_bind, get_store. simpl. rewrite Hpk. reflexivity.
Qed.

End handlers.

(** ** The table across one request *)

Section table.

Implicit Types (s : Store) (request : HttpRequest) (now pk : Z).

Lemma qd_get_None (d : QueryDict) (key : str) :
  qd_get d key = None ↔ key ∉ d.*1.
Proof.
  induction d as [|[k v] d IH]; simpl.
  - split; [intros _; apply not_elem_of_nil | done].
  - rewrite not_elem_of_cons, <- IH.
    destruct (qd_get d key) as [v'|].
    + split; [done|]. by intros [_ Hd].
    + case_decide as Hk; split; try done.
      intros [Hne _]. by destruct Hne.
Qed.

Lemma store_wf_empty : store_wf empty_store.
Proof. intros pk [row Hrow]. simpl in Hrow. by rewrite lookup_empty in Hrow. Qed.

Lemma store_wf_fresh s : store_wf s → rows s !! (last_id s + 1) = None.
Proof.
  intros Hwf. destruct (rows s !! (last_id s + 1)) eqn:E; [|done].
  assert (last_id s + 1 <= last_id s) by (apply Hwf; eauto). lia.
Qed.

(** What one request can do to the table. *)
Lemma step_cases s s' :
  step s s' →
  s' = s
  ∨ (∃ now now' t, t ≠ [] ∧ whitespace_only t = false ∧
       s' = {| rows := <[last_id s + 1 := mkRow t false now now']> (rows s);
               last_id := last_id s + 1 |})
  ∨ (∃ now pk row t c, rows s !! pk = Some row ∧
       t ≠ [] ∧ whitespace_only t = false ∧
       s' = {| rows := <[pk := mkRow t c (row_created_at row) now]> (rows s);
               last_id := last_id s |})
  ∨ (∃ pk row, rows s !! pk = Some row ∧
       s' = {| rows := delete pk (rows s); last_id := last_id s |})
  ∨ (∃ now pk row, rows s !! pk = Some row ∧
       s' = {| rows := <[pk := mkRow (row_title row) (negb (row_completed row))
                                     (row_created_at row) now]> (rows s);
               last_id := last_id s |}).
Proof.
  destruct 1 as [request s|now now' request s|now request pk s|request pk s
                |now request pk s]; unfold store_after.
  - rewrite serve_list. by left.
  - destruct (decide (method request = "POST")) as [Hm|Hm];
      [|rewrite serve_create_get by done; by left].
    destruct (decide (submitted_title request = [])) as [Ht|Ht];
      [rewrite serve_create_empty by done; by left|].
    rewrite serve_create_valid by done. right; left.
    exists now, now', (submitted_title request).
    split_and!; [done|by apply strip_not_whitespace_only|done].
  - destruct (rows s !! pk) as [row|] eqn:Hpk;
      [|rewrite serve_update_missing by done; by left].
    destruct (decide (method request = "POST")) as [Hm|Hm];
      [|erewrite serve_update_get by done; by left].
    destruct (decide (submitted_title request = [])) as [Ht|Ht];
      [erewrite serve_update_empty by done; by left|].
    erewrite serve_update_valid by done. right; right; left.
    exists now, pk, row, (submitted_title request), (submitted_completed request).
    split_and!; [done|done|by apply strip_not_whitespace_only|done].
  - destruct (rows s !! pk) as [row|] eqn:Hpk;
      [|rewrite serve_delete_missing by done; by left].
    destruct (decide (method request = "POST")) as [Hm|Hm];
      [|erewrite serve_delete_get by done; by left].
    erewrite serve_delete_post by done. right; right; right; left. eauto.
  - destruct (rows s !! pk) as [row|] eqn:Hpk;
      [|rewrite serve_toggle_missing by done; by left].
    erewrite serve_toggle_found by done. do 4 right. eauto.
Qed.

(** Keys in use stay below the sequence. *)
Lemma step_store_wf s s' : store_wf s → step s s' → store_wf s'.
Proof.
  intros Hwf Hstep. apply step_cases in Hstep.
  destruct Hstep as [->|[(now & now' & t & _ & _ & ->)|[(now & pk & row & t & c & Hpk & _ & _ & ->)
    |[(pk & row & Hpk & ->)|(now & pk & row & Hpk & ->)]]]]; [done|..];
    intros k [r Hk]; simpl in *.
  - destruct (decide (k = last_id s + 1)) as [->|Hne]; [lia|].
    rewrite lookup_insert_ne in Hk by done.
    assert (k <= last_id s) by (apply Hwf; eauto). lia.
  - destruct (decide (k = pk)) as [->|Hne]; [apply Hwf; eauto|].
    rewrite lookup_insert_ne in Hk by done. apply Hwf; eauto.
  - destruct (decide (k = pk)) as [->|Hne]; [by rewrite lookup_delete_eq in Hk|].
    rewrite lookup_delete_ne in Hk by done. apply Hwf; eauto.
  - destruct (decide (k = pk)) as [->|Hne]; [apply Hwf; eauto|].
    rewrite lookup_insert_ne in Hk by done. apply Hwf; eauto.
Qed.

Lemma titles_ok_empty : titles_ok empty_store.
Proof. intros pk row Hrow. simpl in Hrow. by rewrite lookup_empty in Hrow. Qed.

(** Every table reached from the empty one is well formed. *)
Lemma reachable_wf s : rtc step empty_store s → store_wf s.
Proof.
  revert s. apply rtc_ind_r.
  - apply store_wf_empty.
  - intros s0 s1 _ Hstep Hwf. by eapply step_store_wf.
Qed.

End table.

(** ** Create *)

Section create.

Implicit Types (s : Store) (request : HttpRequest) (now pk : Z).

Lemma elem_of_objects_all (m : gmap Z Row) pk row :
  m !! pk = Some row →
  from_db (pk, row) ∈ merge_sort newest_first (from_db <$> map_to_list m).
Proof.
  intros Hpk. rewrite merge_sort_Permutation.
  apply list_elem_of_fmap. exists (pk, row).
  split; [done|]. by apply elem_of_map_to_list.
Qed.

(** C1. A create POST whose title is not empty once stripped inserts exactly
    one record, under a key that was free, with the stripped title and
    [completed] false, [created_at] the first clock reading of the request
    and [updated_at] the second; it queues one success message containing
    "created successfully", redirects to the list view, and the list view
    served next shows the new record. *)
Theorem create_inserts_one_record now now' request request' s :
  store_wf s →
  method request = "POST" →
  submitted_title request ≠ [] →
  let new := {| id := last_id s + 1; title := submitted_title request;
                completed := false; created_at := now; updated_at := now' |} in
  let s' := store_after (todo_create now now' request) s in
  rows s !! id new = None
  ∧ rows s' = <[id new := to_row new]> (rows s)
  ∧ size (rows s') = S (size (rows s))
  ∧ (∃ m, notices_of (todo_create now now' request) s = [m]
          ∧ level m = SUCCESS
          ∧ contains (lit "created successfully") (text m) = true)
  ∧ outcome_of (todo_create now now' request) s
      = Done (Redirect "todos:todo_list")
  ∧ (∃ todos,
       outcome_of (todo_list request') s'
         = Done (Render "todos/todo_list.html" [("todos", VTodos todos)])
       ∧ new ∈ todos).
Proof.
  intros Hwf Hm Ht new s'. subst new s'.
  unfold store_after, notices_of, outcome_of.
  rewrite serve_list, serve_create_valid by done. simpl.
  pose proof (store_wf_fresh s Hwf) as Hfresh.
  split_and!; try done.
  - by apply map_size_insert_None.
  - eexists. split_and!; reflexivity.
  - eexists. split; [reflexivity|].
    apply (elem_of_objects_all _ (last_id s + 1) (mkRow _ _ _ _)).
    apply lookup_insert_eq.
Qed.

(** C6. A create POST whose title is empty once stripped leaves the table
    as it was, queues one error message containing "cannot be empty", and
    renders the form again with status 200. *)
Theorem create_empty_title_rejected now now' request s :
  method request = "POST" →
  submitted_title request = [] →
  store_after (todo_create now now' request) s = s
  ∧ (∃ m, notices_of (todo_create now now' request) s = [m]
          ∧ level m = ERROR
          ∧ contains (lit "cannot be empty") (text m) = true)
  ∧ outcome_of (todo_create now now' request) s
      = Done (Render "todos/todo_form.html"
                [("form_title", VStr (lit "Create Todo"))])
  ∧ status_code (outcome_of (todo_create now now' request) s) = 200.
Proof.
  intros Hm Ht. unfold store_after, notices_of, outcome_of.
  rewrite serve_create_empty by done. simpl.
  split_and!; try done. eexists. split_and!; reflexivity.
Qed.

End create.

(** ** Update *)

Section update.

Implicit Types (s : Store) (request : HttpRequest) (now pk : Z).

(** C3. An update POST on an existing record with a title that is not empty
    once stripped writes both fields: the title becomes the stripped
    submission, and [completed] is true exactly when the form's
    [completed] field reads "on"; when the form has no such field it
    becomes false, whatever it was. *)
Theorem update_overwrites_both_fields now request pk s row :
  rows s !! pk = Some row →
  method request = "POST" →
  submitted_title request ≠ [] →
  let s' := store_after (todo_update now request pk) s in
  rows s' !! pk
    = Some {| row_title := submitted_title request;
              row_completed := submitted_completed request;
              row_created_at := row_created_at row;
              row_updated_at := now |}
  ∧ (submitted_completed request = true
     ↔ qd_get (POST request) (lit "completed") = Some (lit "on"))
  ∧ (lit "completed" ∉ (POST request).*1 →
     row_completed <$> rows s' !! pk = Some false).
Proof.
  intros Hpk Hm Ht s'. subst s'. unfold store_after.
  erewrite serve_update_valid by done. simpl.
  rewrite lookup_insert_eq. split_and!; [done|..].
  - unfold submitted_completed. apply bool_decide_eq_true.
  - intros Habs. apply qd_get_None in Habs. simpl.
    unfold submitted_completed. rewrite Habs. reflexivity.
Qed.

(** C4. An update POST on an existing record whose title is empty once
    stripped changes nothing in the table, queues one error message, and
    renders the form again with the record as it is stored. *)
Theorem update_empty_title_changes_nothing now request pk s row :
  rows s !! pk = Some row →
  method request = "POST" →
  submitted_title request = [] →
  store_after (todo_update now request pk) s = s
  ∧ rows (store_after (todo_update now request pk) s) !! pk = Some row
  ∧ (∃ m, notices_of (todo_update now request pk) s = [m]
          ∧ level m = ERROR
          ∧ contains (lit "cannot be empty") (text m) = true)
  ∧ outcome_of (todo_update now request pk) s
      = Done (Render "todos/todo_form.html"
                [("todo", VTodo {| id := pk; title := row_title row;
                                   completed := row_completed row;
                                   created_at := row_created_at row;
                                   updated_at := row_updated_at row |});
                 ("form_title", VStr (lit "Edit Todo"))])
  ∧ status_code (outcome_of (todo_update now request pk) s) = 200.
Proof.
  intros Hpk Hm Ht. unfold store_after, notices_of, outcome_of.
  erewrite serve_update_empty by done. simpl.
  split_and!; try done. eexists. split_and!; reflexivity.
Qed.

End update.

(** ** Toggle *)

Section toggle.

Implicit Types (s : Store) (request : HttpRequest) (now pk : Z).

(** C2. Toggling an existing record flips [completed] and queues one
    success message that says "completed" when the new value is true and
    "incomplete" when it is false; toggling twice gives [completed] its
    first value back. *)
Theorem toggle_involution now1 now2 request1 request2 pk s row :
  rows s !! pk = Some row →
  let s1 := store_after (todo_toggle now1 request1 pk) s in
  let s2 := store_after (todo_toggle now2 request2 pk) s1 in
  row_completed <$> rows s1 !! pk = Some (negb (row_completed row))
  ∧ row_completed <$> rows s2 !! pk = Some (row_completed row)
  ∧ outcome_of (todo_toggle now1 request1 pk) s
      = Done (Redirect "todos:todo_list")
  ∧ (∃ m, notices_of (todo_toggle now1 request1 pk) s = [m]
          ∧ level m = SUCCESS
          ∧ text m = lit ("Todo marked as "
                          +:+ (if negb (row_completed row)
                               then "completed" else "incomplete")
                          +:+ "!")
          ∧ contains (lit "completed") (text m) = negb (row_completed row)
          ∧ contains (lit "incomplete") (text m) = row_completed row).
Proof.
  intros Hpk s1 s2. subst s2 s1. unfold store_after, notices_of, outcome_of.
  erewrite (serve_toggle_found now1) by done. simpl.
  erewrite (serve_toggle_found now2) by apply lookup_insert_eq. simpl.
  rewrite !lookup_insert_eq. simpl. rewrite negb_involutive.
  split_and!; try done.
  eexists. split_and!; try reflexivity; by destruct (row_completed row).
Qed.

(** C10. Toggling an existing record keeps it under its key with its title
    and [created_at]; only [completed] (negated) and [updated_at] (the
    time of the request) differ.  Every other row, the set of keys and
    the key sequence are as before. *)
Theorem toggle_frame now request pk s row :
  rows s !! pk = Some row →
  let s' := store_after (todo_toggle now request pk) s in
  (∃ row', rows s' !! pk = Some row'
     ∧ id (from_db (pk, row')) = id (from_db (pk, row))
     ∧ title (from_db (pk, row')) = title (from_db (pk, row))
     ∧ created_at (from_db (pk, row')) = created_at (from_db (pk, row))
     ∧ completed (from_db (pk, row')) = negb (completed (from_db (pk, row)))
     ∧ updated_at (from_db (pk, row')) = now)
  ∧ (∀ pk', pk' ≠ pk → rows s' !! pk' = rows s !! pk')
  ∧ dom (rows s') = dom (rows s)
  ∧ last_id s' = last_id s.
Proof.
  intros Hpk s'. subst s'. unfold store_after.
  erewrite serve_toggle_found by done. simpl. split_and!; try done.
  - eexists. rewrite lookup_insert_eq. split_and!; reflexivity.
  - intros pk' Hne. by rewrite lookup_insert_ne.
  - apply dom_insert_lookup_L. eauto.
Qed.

End toggle.

(** ** Ids without a record *)

Section missing.

Implicit Types (s : Store) (request : HttpRequest) (now pk : Z).

(** C5. On an id that has no record, update, delete and toggle raise
    [Http404] whatever the request's method and form: the reply has status
    404, the table is as it was and no message is queued. *)
Theorem missing_id_is_404 now request pk s :
  rows s !! pk = None →
  (outcome_of (todo_update now request pk) s = Http404
   ∧ status_code (outcome_of (todo_update now request pk) s) = 404
   ∧ store_after (todo_update now request pk) s = s
   ∧ notices_of (todo_update now request pk) s = [])
  ∧ (outcome_of (todo_delete request pk) s = Http404
     ∧ status_code (outcome_of (todo_delete request pk) s) = 404
     ∧ store_after (todo_delete request pk) s = s
     ∧ notices_of (todo_delete request pk) s = [])
  ∧ (outcome_of (todo_toggle now request pk) s = Http404
     ∧ status_code (outcome_of (todo_toggle now request pk) s) = 404
     ∧ store_after (todo_toggle now request pk) s = s
     ∧ notices_of (todo_toggle now request pk) s = []).
Proof.
  intros Hpk. unfold store_after, notices_of, outcome_of.
  rewrite serve_update_missing, serve_delete_missing, serve_toggle_missing
    by done.
  done.
Qed.

End missing.

(** ** Titles *)

Section titles.

Implicit Types (s : Store) (request : HttpRequest) (now pk : Z).

(** C8. If no stored title is empty or whitespace-only, then after one
    request served by any of the handlers (list, create, update, delete,
    toggle), whatever the request, this is still so. *)
Theorem titles_never_blank s s' :
  titles_ok s → step s s' → titles_ok s'.
Proof.
  intros Hok Hstep. apply step_cases in Hstep.
  destruct Hstep as [->|[(now & now' & t & ? & ? & ->)|[(now & pk & row & t & c & Hpk & ? & ? & ->)
    |[(pk & row & Hpk & ->)|(now & pk & row & Hpk & ->)]]]]; [done|..];
    intros k r Hk; simpl in *.
  - destruct (decide (k = last_id s + 1)) as [->|Hne].
    + rewrite lookup_insert_eq in Hk. by simplify_eq.
    + rewrite lookup_insert_ne in Hk by done. by eapply Hok.
  - destruct (decide (k = pk)) as [->|Hne].
    + rewrite lookup_insert_eq in Hk. by simplify_eq.
    + rewrite lookup_insert_ne in Hk by done. by eapply Hok.
  - destruct (decide (k = pk)) as [->|Hne]; [by rewrite lookup_delete_eq in Hk|].
    rewrite lookup_delete_ne in Hk by done. by eapply Hok.
  - destruct (decide (k = pk)) as [->|Hne].
    + rewrite lookup_insert_eq in Hk. simplify_eq. simpl. by eapply Hok.
    + rewrite lookup_insert_ne in Hk by done. by eapply Hok.
Qed.

Lemma strip_replicate (n : nat) (c : N) :
  isspace c = false → strip (replicate n c) = replicate n c.
Proof.
  intros Hc. assert (Hl : lstrip (replicate n c) = replicate n c).
  { destruct n as [|n]; simpl; [done|]. by rewrite Hc. }
  unfold strip, rstrip. by rewrite Hl, reverse_replicate, Hl, reverse_replicate.
Qed.

Lemma submitted_title_create_request (t : str) :
  submitted_title (create_request t) = strip t.
Proof.
  reflexivity.
Qed.

(** C9. The only check on a submitted title is that it is not empty once
    stripped: create, and update of an existing record, redirect exactly
    when it is not, and then store the stripped title whole.  No length
    enters: a title of [n] letters is accepted and stored for every
    [n ≥ 1], 200 or more included. *)
Theorem title_length_not_checked now now' request s :
  method request = "POST" →
  (outcome_of (todo_create now now' request) s = Done (Redirect "todos:todo_list")
   ↔ submitted_title request ≠ [])
  ∧ (submitted_title request ≠ [] →
     row_title <$> rows (store_after (todo_create now now' request) s)
                     !! (last_id s + 1)
       = Some (submitted_title request))
  ∧ (∀ pk row, rows s !! pk = Some row →
       (outcome_of (todo_update now request pk) s
          = Done (Redirect "todos:todo_list")
        ↔ submitted_title request ≠ [])
       ∧ (submitted_title request ≠ [] →
          row_title <$> rows (store_after (todo_update now request pk) s) !! pk
            = Some (submitted_title request)))
  ∧ (∀ n : nat, (1 ≤ n)%nat →
       let long := replicate n 0x61%N in
       outcome_of (todo_create now now' (create_request long)) s
         = Done (Redirect "todos:todo_list")
       ∧ row_title <$> rows (store_after (todo_create now now' (create_request long)) s)
                         !! (last_id s + 1)
           = Some long
       ∧ length long = n).
Proof.
  intros Hm. unfold store_after, outcome_of. split_and!.
  - destruct (decide (submitted_title request = [])) as [Ht|Ht].
    + rewrite serve_create_empty by done. simpl. split; [done|congruence].
    + rewrite serve_create_valid by done. done.
  - intros Ht. rewrite serve_create_valid by done. simpl.
    by rewrite lookup_insert_eq.
  - intros pk row Hpk. split.
    + destruct (decide (submitted_title request = [])) as [Ht|Ht].
      * erewrite serve_update_empty by done. simpl. split; [done|congruence].
      * erewrite serve_update_valid by done. done.
    + intros Ht. erewrite serve_update_valid by done. simpl.
      by rewrite lookup_insert_eq.
  - intros n Hn. set (long := replicate n 0x61%N).
    assert (Ht : submitted_title (create_request long) = long).
    { rewrite submitted_title_create_request. by apply strip_replicate. }
    assert (long ≠ []) by (subst long; destruct n; [lia|done]).
    rewrite serve_create_valid by (done || congruence). simpl.
    rewrite lookup_insert_eq, Ht. simpl.
    split_and!; [done..|]. apply length_replicate.
Qed.

End titles.

(** ** List *)

Section listing.

Implicit Types (s : Store) (request : HttpRequest) (now pk : Z).

Local Instance newest_first_total : Total newest_first.
Proof. intros x y. unfold newest_first. lia. Qed.

Local Instance newest_first_trans : Transitive newest_first.
Proof. intros x y z. unfold newest_first. lia. Qed.

Local Instance older_trans : Transitive older.
Proof. intros p q r. unfold older. lia. Qed.

Lemma Sorted_weaken {A} (R1 R2 : relation A) (l : list A) :
  (∀ x y, R1 x y → R2 x y) → Sorted R1 l → Sorted R2 l.
Proof.
  intros HR. induction 1 as [|x l _ IH Hhd]; constructor; [done|].
  destruct Hhd; constructor; auto.
Qed.

(** The instances made by submissions in clock order have increasing
    [created_at]. *)
Lemma created_times pk (subs : list (Time * Time * str)) now :
  Forall (λ p, now < p.1.1) subs →
  Forall (λ x, now < created_at x) (created pk subs).
Proof.
  intros Hall. revert pk.
  induction Hall as [|[[t1 t2] t] subs Hlt _ IH]; intros pk; simpl;
    constructor; auto.
Qed.

Lemma created_increasing pk (subs : list (Time * Time * str)) :
  Sorted older subs →
  StronglySorted (λ x y, created_at x < created_at y) (created pk subs).
Proof.
  intros Hsorted. apply Sorted_StronglySorted in Hsorted; [|apply _].
  revert pk.
  induction Hsorted as [|[[now now'] t] subs _ IH Hall]; intros pk; simpl.
  - constructor.
  - constructor; [apply IH|]. by apply created_times.
Qed.

Lemma increasing_distinct (l : list Todo) (x y : Todo) :
  StronglySorted (λ x y, created_at x < created_at y) l →
  x ∈ l → y ∈ l → created_at x = created_at y → x = y.
Proof.
  induction 1 as [|z l _ IH Hall]; intros Hx Hy Heq.
  - by apply elem_of_nil in Hx.
  - rewrite Forall_forall in Hall.
    apply elem_of_cons in Hx as [->|Hx]; apply elem_of_cons in Hy as [->|Hy].
    + done.
    + apply Hall in Hy. lia.
    + apply Hall in Hx. lia.
    + by apply IH.
Qed.

Lemma created_newest_first pk (subs : list (Time * Time * str)) :
  Sorted older subs →
  StronglySorted newest_first (reverse (created pk subs)).
Proof.
  intros Hsorted. apply Sorted_StronglySorted; [apply _|].
  apply (Sorted_weaken (flip (λ x y, created_at x < created_at y))).
  { intros x y. unfold flip, newest_first. lia. }
  apply Sorted_reverse, StronglySorted_Sorted. by apply created_increasing.
Qed.

(** The table after a run of valid create forms. *)
Lemma create_each_rows (subs : list (Time * Time * str)) s :
  store_wf s →
  Forall (λ p, strip p.2 ≠ []) subs →
  from_db <$> map_to_list (rows (create_each subs s))
    ≡ₚ (from_db <$> map_to_list (rows s)) ++ created (last_id s + 1) subs.
Proof.
  intros Hwf Hall. revert s Hwf.
  induction Hall as [|[[now now'] t] subs Ht _ IH]; intros s Hwf; simpl.
  { by rewrite app_nil_r. }
  pose proof (step_store_wf _ _ Hwf
                (step_create now now' (create_request t) s)) as Hwf'.
  rewrite (IH _ Hwf'). unfold store_after.
  rewrite serve_create_valid by done. simpl.
  rewrite map_to_list_insert by by apply store_wf_fresh.
  rewrite fmap_cons. simpl. by rewrite <- Permutation_middle.
Qed.

Lemma objects_all_sorted (m : gmap Z Row) :
  StronglySorted newest_first
    (merge_sort newest_first (from_db <$> map_to_list m)).
Proof. apply StronglySorted_merge_sort; apply _. Qed.

Lemma list_after_creates (subs : list (Time * Time * str)) :
  Forall (λ p, strip p.2 ≠ []) subs →
  Sorted older subs →
  merge_sort newest_first
    (from_db <$> map_to_list (rows (create_each subs empty_store)))
  = reverse (created 1 subs).
Proof.
  intros Hall Hsorted.
  assert (Hperm : merge_sort newest_first
            (from_db <$> map_to_list (rows (create_each subs empty_store)))
          ≡ₚ created 1 subs).
  { rewrite merge_sort_Permutation.
    rewrite (create_each_rows subs empty_store store_wf_empty Hall). simpl.
    by rewrite map_to_list_empty. }
  apply (StronglySorted_unique_strong newest_first).
  - intros x y Hx Hy Hxy Hyx. rewrite Hperm in Hx.
    rewrite elem_of_reverse in Hy.
    eapply increasing_distinct; [by apply (created_increasing 1)|done..|].
    unfold newest_first in *. lia.
  - apply objects_all_sorted.
  - by apply created_newest_first.
  - by rewrite Hperm, reverse_Permutation.
Qed.

(** C7. The list view shows every record once, newest [created_at] first.
    When todos are created from the empty table by forms whose first clock
    readings (the ones that fill [created_at]) increase, the list view
    shows them in the reverse of the order of creation, whatever the
    second readings; in particular A, B, C are listed as C, B, A. *)
Theorem list_newest_first request :
  (∀ s, ∃ todos,
     outcome_of (todo_list request) s
       = Done (Render "todos/todo_list.html" [("todos", VTodos todos)])
     ∧ todos ≡ₚ from_db <$> map_to_list (rows s)
     ∧ StronglySorted newest_first todos)
  ∧ (∀ subs : list (Time * Time * str),
       Forall (λ p, strip p.2 ≠ []) subs →
       Sorted older subs →
       outcome_of (todo_list request) (create_each subs empty_store)
         = Done (Render "todos/todo_list.html"
                   [("todos", VTodos (reverse (created 1 subs)))]))
  ∧ (∀ (tA tA' tB tB' tC tC' : Time) (a b c : str),
       strip a ≠ [] → strip b ≠ [] → strip c ≠ [] →
       tA < tB → tB < tC →
       outcome_of (todo_list request)
         (create_each [(tA, tA', a); (tB, tB', b); (tC, tC', c)] empty_store)
         = Done (Render "todos/todo_list.html"
                   [("todos", VTodos
                      [ {| id := 3; title := strip c; completed := false;
                           created_at := tC; updated_at := tC' |};
                        {| id := 2; title := strip b; completed := false;
                           created_at := tB; updated_at := tB' |};
                        {| id := 1; title := strip a; completed := false;
                           created_at := tA; updated_at := tA' |} ])])).
Proof.
  unfold outcome_of. split_and!.
  - intros s. rewrite serve_list. simpl. eexists. split; [reflexivity|].
    split; [apply merge_sort_Permutation|apply objects_all_sorted].
  - intros subs Hall Hsorted. rewrite serve_list. simpl.
    by rewrite list_after_creates.
  - intros tA tA' tB tB' tC tC' a b c Ha Hb Hc HAB HBC. rewrite serve_list.
    rewrite (list_after_creates [(tA, tA', a); (tB, tB', b); (tC, tC', c)]);
      [done|..].
    + by repeat constructor.
    + repeat constructor; done.
Qed.

End listing.

(** ** Worked examples *)

Section examples.

Lemma two_todos_first :
  rows two_todos !! 1 = Some (mkRow (lit "Buy milk") false 10 11).
Proof. vm_compute. reflexivity. Qed.

(** The example of the specification: posting ["  Buy milk  "] to the
    empty table. *)
Lemma create_inserts_one_record_witness :
  rows (store_after (todo_create 10 11 (create_request (lit "  Buy milk  ")))
          empty_store)
    = <[1 := mkRow (lit "Buy milk") false 10 11]> ∅
  ∧ outcome_of (todo_create 10 11 (create_request (lit "  Buy milk  ")))
      empty_store
    = Done (Redirect "todos:todo_list").
Proof.
  assert (Hne : submitted_title (create_request (lit "  Buy milk  ")) ≠ [])
    by (by vm_compute).
  destruct (create_inserts_one_record 10 11 (create_request (lit "  Buy milk  "))
              (mkRequest "GET" []) empty_store store_wf_empty eq_refl Hne)
    as (_ & Hrows & _ & _ & Hout & _).
  split; [exact Hrows|exact Hout].
Defined.

Lemma create_empty_title_rejected_witness :
  store_after (todo_create 30 31 (create_request (lit "   "))) two_todos
    = two_todos
  ∧ status_code (outcome_of (todo_create 30 31 (create_request (lit "   ")))
                   two_todos) = 200.
Proof.
  destruct (create_empty_title_rejected 30 31 (create_request (lit "   "))
              two_todos eq_refl eq_refl)
    as (Hstore & _ & _ & Hstatus).
  split; [exact Hstore|exact Hstatus].
Defined.

Lemma toggle_involution_witness :
  row_completed
    <$> rows (store_after (todo_toggle 40 (mkRequest "GET" []) 1)
                (store_after (todo_toggle 30 (mkRequest "GET" []) 1)
                   two_todos)) !! 1
  = Some false.
Proof.
  destruct (toggle_involution 30 40 (mkRequest "GET" []) (mkRequest "GET" [])
              1 two_todos _ two_todos_first)
    as (_ & Htwice & _).
  exact Htwice.
Defined.

(** An edit form that leaves the checkbox out. *)
Lemma update_overwrites_both_fields_witness :
  rows (store_after
          (todo_update 50
             (mkRequest "POST" [(lit "title", lit " Buy oat milk ")]) 1)
          two_todos) !! 1
  = Some (mkRow (lit "Buy oat milk") false 10 50).
Proof.
  assert (Hne : submitted_title
                  (mkRequest "POST" [(lit "title", lit " Buy oat milk ")])
                ≠ []) by (by vm_compute).
  destruct (update_overwrites_both_fields 50
              (mkRequest "POST" [(lit "title", lit " Buy oat milk ")])
              1 two_todos _ two_todos_first eq_refl Hne)
    as (Hrow & _).
  exact Hrow.
Defined.

Lemma update_empty_title_changes_nothing_witness :
  store_after
    (todo_update 50
       (mkRequest "POST" [(lit "title", lit "  "); (lit "completed", lit "on")])
       1)
    two_todos
  = two_todos.
Proof.
  destruct (update_empty_title_changes_nothing 50
              (mkRequest "POST"
                 [(lit "title", lit "  "); (lit "completed", lit "on")])
              1 two_todos _ two_todos_first eq_refl eq_refl)
    as (Hstore & _).
  exact Hstore.
Defined.

Lemma two_todos_no_99999 : rows two_todos !! 99999 = None.
Proof. vm_compute. reflexivity. Qed.

Lemma missing_id_is_404_witness :
  status_code (outcome_of (todo_update 50 (mkRequest "GET" []) 99999)
                 two_todos) = 404
  ∧ status_code (outcome_of (todo_delete (mkRequest "POST" []) 99999)
                   two_todos) = 404
  ∧ status_code (outcome_of (todo_toggle 50 (mkRequest "GET" []) 99999)
                   two_todos) = 404.
Proof.
  destruct (missing_id_is_404 50 (mkRequest "GET" []) 99999 two_todos
              two_todos_no_99999)
    as ((_ & Hupdate & _) & _ & (_ & Htoggle & _)).
  destruct (missing_id_is_404 50 (mkRequest "POST" []) 99999 two_todos
              two_todos_no_99999)
    as (_ & (_ & Hdelete & _) & _).
  split; [exact Hupdate|]. split; [exact Hdelete|exact Htoggle].
Defined.

Lemma list_newest_first_witness :
  outcome_of (todo_list (mkRequest "GET" []))
    (create_each [(10, 11, lit "A"); (20, 21, lit "B"); (30, 31, lit "C")]
       empty_store)
  = Done (Render "todos/todo_list.html"
            [("todos", VTodos [mkTodo 3 (lit "C") false 30 31;
                               mkTodo 2 (lit "B") false 20 21;
                               mkTodo 1 (lit "A") false 10 11])]).
Proof.
  destruct (list_newest_first (mkRequest "GET" [])) as (_ & _ & Habc).
  assert (Ha : strip (lit "A") ≠ []) by (by vm_compute).
  assert (Hb : strip (lit "B") ≠ []) by (by vm_compute).
  assert (Hc : strip (lit "C") ≠ []) by (by vm_compute).
  exact (Habc 10 11 20 21 30 31 (lit "A") (lit "B") (lit "C") Ha Hb Hc eq_refl eq_refl).
Defined.

Lemma titles_never_blank_witness :
  titles_ok (store_after (todo_create 10 11 (create_request (lit "  Buy milk  ")))
               empty_store).
Proof.
  apply (titles_never_blank empty_store).
  - apply titles_ok_empty.
  - apply step_create.
Defined.

(** A title of 250 letters. *)
Lemma title_length_not_checked_witness :
  outcome_of (todo_create 30 31 (create_request (replicate 250 0x61%N))) two_todos
    = Done (Redirect "todos:todo_list")
  ∧ length <$> (row_title
      <$> rows (store_after
                  (todo_create 30 31 (create_request (replicate 250 0x61%N)))
                  two_todos) !! 3)
    = Some 250%nat.
Proof.
  destruct (title_length_not_checked 30 31 (create_request (lit "x")) two_todos
              eq_refl)
    as (_ & _ & _ & Hlong).
  assert (Hn : (1 ≤ 250)%nat) by lia.
  destruct (Hlong 250%nat Hn) as (Hout & Hrow & Hlen).
  split; [exact Hout|].
  change (last_id two_todos + 1) with 3 in Hrow.
  rewrite Hrow. cbn [fmap option_fmap option_map]. by rewrite Hlen.
Defined.

Lemma toggle_frame_witness :
  rows (store_after (todo_toggle 30 (mkRequest "GET" []) 1) two_todos) !! 2
  = rows two_todos !! 2.
Proof.
  destruct (toggle_frame 30 (mkRequest "GET" []) 1 two_todos _ two_todos_first)
    as (_ & Hothers & _).
  apply Hothers. lia.
Defined.

End examples.

(** ** More on text *)

Section more_text.

Lemma lstrip_nonspace (c : N) (s : str) :
  isspace c = false → lstrip (c :: s) = c :: s.
Proof. intros Hc. simpl. by rewrite Hc. Qed.

(** A stripped text that is not empty ends with a character that is not
    whitespace. *)
Lemma strip_last (s : str) :
  strip s = [] ∨ ∃ s' d, strip s = s' ++ [d] ∧ isspace d = false.
Proof.
  unfold strip, rstrip.
  destruct (lstrip_head (reverse (lstrip s))) as [->|(d & r & -> & Hd)];
    [by left|].
  right. exists (reverse r), d. by rewrite reverse_cons.
Qed.

(** Text that neither starts nor ends with whitespace is left alone. *)
Lemma strip_fixed (c d : N) (s s' : str) :
  isspace c = false → isspace d = false →
  c :: s = s' ++ [d] → strip (c :: s) = c :: s.
Proof.
  intros Hc Hd Heq. unfold strip, rstrip.
  rewrite (lstrip_nonspace c s Hc), Heq, reverse_app. simpl.
  rewrite Hd. change (d :: reverse s') with ([d] ++ reverse s').
  by rewrite reverse_app, reverse_involutive.
Qed.

Lemma strip_idemp (s : str) : strip (strip s) = strip s.
Proof.
  destruct (strip_head s) as [->|(c & t & Hhead & Hc)]; [reflexivity|].
  destruct (strip_last s) as [Hnil|(t' & d & Hlast & Hd)]; [congruence|].
  rewrite Hhead. eapply strip_fixed; [done..|]. by rewrite <- Hhead.
Qed.

Lemma startswith_app (p s : str) : startswith (p ++ s) p = true.
Proof.
  induction p as [|a p IH]; simpl; [by destruct s|].
  by rewrite N.eqb_refl, IH.
Qed.

Lemma contains_here (needle rest : str) :
  contains needle (needle ++ rest) = true.
Proof.
  generalize (startswith_app needle rest).
  generalize (needle ++ rest). intros hay Hs.
  destruct hay; cbn [contains]; by rewrite Hs.
Qed.

Lemma contains_app (needle before rest : str) :
  contains needle (before ++ needle ++ rest) = true.
Proof.
  induction before as [|a before IH].
  - exact (contains_here needle rest).
  - change ((a :: before) ++ needle ++ rest)
      with (a :: (before ++ needle ++ rest)).
    cbn [contains]. rewrite IH. apply orb_true_r.
Qed.

End more_text.

(** ** The model's [__str__] *)

Section printing.

(** X1. The text of a todo starts with the check mark exactly when it is
    completed and with the white circle exactly when it is not, and the
    title occurs in it. *)
Theorem todo_str_shows_status_and_title (todo : Todo) :
  startswith (todo_str todo) [0x2713%N] = completed todo
  ∧ startswith (todo_str todo) [0x25CB%N] = negb (completed todo)
  ∧ contains (title todo) (todo_str todo) = true.
Proof.
  unfold todo_str. split_and!.
  - by destruct (completed todo).
  - by destruct (completed todo).
  - cbv zeta. rewrite <- (app_nil_r (title todo)) at 2.
    rewrite (app_assoc _ (lit " ")). apply contains_app.
Qed.

(** X2. Two todos have the same text exactly when they have the same
    title and the same completion status. *)
Theorem todo_str_determines (a b : Todo) :
  todo_str a = todo_str b ↔ completed a = completed b ∧ title a = title b.
Proof.
  unfold todo_str. split.
  - destruct (completed a), (completed b); simpl; intros Heq;
      by simplify_eq.
  - by intros [-> ->].
Qed.

End printing.

(** ** Delete *)

Section delete.

Implicit Types (s : Store) (request : HttpRequest) (now pk : Z).

(** X3. A delete POST on an existing record removes that row and no other:
    the table has one row less, the key sequence is as before, one success
    message containing "deleted successfully" is queued and the reply
    redirects to the list view. *)
Theorem delete_removes_record request pk s row :
  rows s !! pk = Some row →
  method request = "POST" →
  let s' := store_after (todo_delete request pk) s in
  rows s' !! pk = None
  ∧ (∀ pk', pk' ≠ pk → rows s' !! pk' = rows s !! pk')
  ∧ S (size (rows s')) = size (rows s)
  ∧ last_id s' = last_id s
  ∧ (∃ m, notices_of (todo_delete request pk) s = [m]
          ∧ level m = SUCCESS
          ∧ contains (lit "deleted successfully") (text m) = true)
  ∧ outcome_of (todo_delete request pk) s = Done (Redirect "todos:todo_list").
Proof.
  intros Hpk Hm s'. subst s'. unfold store_after, notices_of, outcome_of.
  erewrite serve_delete_post by done. simpl. split_and!; try done.
  - apply lookup_delete_eq.
  - intros pk' Hne. by apply lookup_delete_ne.
  - rewrite map_size_delete, Hpk.
    assert (size (rows s) ≠ 0%nat).
    { intros Hz. apply map_size_empty_inv in Hz. rewrite Hz in Hpk.
      by rewrite lookup_empty in Hpk. }
    simpl. lia.
  - eexists. split_and!; reflexivity.
Qed.

(** X4. Once a record is deleted its id has no record: update, delete and
    toggle on it raise [Http404], and the list view shows no todo with
    that id. *)
Theorem deleted_id_is_gone now request request' pk s row :
  rows s !! pk = Some row →
  method request = "POST" →
  let s' := store_after (todo_delete request pk) s in
  outcome_of (todo_update now request' pk) s' = Http404
  ∧ outcome_of (todo_delete request' pk) s' = Http404
  ∧ outcome_of (todo_toggle now request' pk) s' = Http404
  ∧ pk ∉ id <$> listed (outcome_of (todo_list request') s').
Proof.
  intros Hpk Hm s'.
  assert (Hgone : rows s' !! pk = None).
  { subst s'. unfold store_after. erewrite serve_delete_post by done.
    apply lookup_delete_eq. }
  clearbody s'. unfold outcome_of.
  rewrite serve_update_missing, serve_delete_missing, serve_toggle_missing,
    serve_list by done.
  split_and!; try done. simpl.
  intros Hin. apply list_elem_of_fmap in Hin as (todo & -> & Hin).
  rewrite merge_sort_Permutation in Hin.
  apply list_elem_of_fmap in Hin as ([k r] & -> & Hin).
  apply elem_of_map_to_list in Hin. simpl in Hgone. congruence.
Qed.

(** X5. A request to the delete page that is not a POST only asks for
    confirmation: it renders the confirmation page with the stored record,
    with status 200, and neither changes the table nor queues a message. *)
Theorem delete_asks_first request pk s row :
  rows s !! pk = Some row →
  method request ≠ "POST" →
  outcome_of (todo_delete request pk) s
    = Done (Render "todos/todo_confirm_delete.html"
              [("todo", VTodo {| id := pk; title := row_title row;
                                 completed := row_completed row;
                                 created_at := row_created_at row;
                                 updated_at := row_updated_at row |})])
  ∧ status_code (outcome_of (todo_delete request pk) s) = 200
  ∧ store_after (todo_delete request pk) s = s
  ∧ notices_of (todo_delete request pk) s = [].
Proof.
  intros Hpk Hm. unfold store_after, notices_of, outcome_of.
  erewrite serve_delete_get by done. done.
Qed.

End delete.

(** ** Replies *)

Section replies.

Implicit Types (s : Store) (request : HttpRequest) (now pk : Z).


(** X7. Every reply of every handler has one of three shapes: [Http404]
    with the table unchanged and no message; a rendered page with the table
    unchanged and either no message or the one error message about an
    empty title; or a redirect to the list view with exactly one success
    message.  So the table changes only under a redirect with a success
    message, and an error message never comes with a change. *)
Theorem reply_shapes s r :
  served s r →
  (r.1 = Http404 ∧ store r.2 = s ∧ messages r.2 = [])
  ∨ ((∃ template context, r.1 = Done (Render template context))
     ∧ store r.2 = s
     ∧ (messages r.2 = []
        ∨ messages r.2 = [mkMessage ERROR (lit "Title cannot be empty!")]))
  ∨ (r.1 = Done (Redirect "todos:todo_list")
     ∧ ∃ m, messages r.2 = [m] ∧ level m = SUCCESS).
Proof.
  destruct 1 as [request s|now now' request s|now request pk s|request pk s
                |now request pk s].
  - rewrite serve_list. right; left. simpl. eauto 6.
  - destruct (decide (method request = "POST")) as [Hm|Hm];
      [|rewrite serve_create_get by done; right; left; simpl; eauto 6].
    destruct (decide (submitted_title request = [])) as [Ht|Ht].
    + rewrite serve_create_empty by done. right; left. simpl. eauto 6.
    + rewrite serve_create_valid by done. right; right. simpl. eauto.
  - destruct (rows s !! pk) as [row|] eqn:Hpk;
      [|rewrite serve_update_missing by done; by left].
    destruct (decide (method request = "POST")) as [Hm|Hm];
      [|erewrite serve_update_get by done; right; left; simpl; eauto 6].
    destruct (decide (submitted_title request = [])) as [Ht|Ht].
    + erewrite serve_update_empty by done. right; left. simpl. eauto 6.
    + erewrite serve_update_valid by done. right; right. simpl. eauto.
  - destruct (rows s !! pk) as [row|] eqn:Hpk;
      [|rewrite serve_delete_missing by done; by left].
    destruct (decide (method request = "POST")) as [Hm|Hm].
    + erewrite serve_delete_post by done. right; right. simpl. eauto.
    + erewrite serve_delete_get by done. right; left. simpl. eauto 6.
  - destruct (rows s !! pk) as [row|] eqn:Hpk;
      [|rewrite serve_toggle_missing by done; by left].
    erewrite serve_toggle_found by done. right; right. simpl. eauto.
Qed.

End replies.

(** ** Runs of requests *)

Section runs.

Implicit Types (s : Store) (request : HttpRequest) (now pk : Z).

(** What one request served at the readings [now], [now'] can do to the
    table. *)
Lemma step_at_shapes now now' s s' :
  step_at now now' s s' →
  s' = s
  ∨ (∃ request, submitted_title request ≠ [] ∧
       s' = {| rows := <[last_id s + 1 :=
                           mkRow (submitted_title request) false now now']>
                         (rows s);
               last_id := last_id s + 1 |})
  ∨ (∃ request pk row, rows s !! pk = Some row ∧
       submitted_title request ≠ [] ∧
       s' = {| rows := <[pk := edited now request row]> (rows s);
               last_id := last_id s |})
  ∨ (∃ pk row, rows s !! pk = Some row ∧
       s' = {| rows := delete pk (rows s); last_id := last_id s |})
  ∨ (∃ pk row, rows s !! pk = Some row ∧
       s' = {| rows := <[pk := toggled now row]> (rows s);
               last_id := last_id s |}).
Proof.
  destruct 1 as [request s|request s|request pk s|request pk s
                |request pk s]; unfold store_after.
  - rewrite serve_list. by left.
  - destruct (decide (method request = "POST")) as [Hm|Hm];
      [|rewrite serve_create_get by done; by left].
    destruct (decide (submitted_title request = [])) as [Ht|Ht];
      [rewrite serve_create_empty by done; by left|].
    rewrite serve_create_valid by done. right; left. eauto.
  - destruct (rows s !! pk) as [row|] eqn:Hpk;
      [|rewrite serve_update_missing by done; by left].
    destruct (decide (method request = "POST")) as [Hm|Hm];
      [|erewrite serve_update_get by done; by left].
    destruct (decide (submitted_title request = [])) as [Ht|Ht];
      [erewrite serve_update_empty by done; by left|].
    erewrite serve_update_valid by done. right; right; left.
    exists request, pk, row. done.
  - destruct (rows s !! pk) as [row|] eqn:Hpk;
      [|rewrite serve_delete_missing by done; by left].
    destruct (decide (method request = "POST")) as [Hm|Hm];
      [|erewrite serve_delete_get by done; by left].
    erewrite serve_delete_post by done. right; right; right; left. eauto.
  - destruct (rows s !! pk) as [row|] eqn:Hpk;
      [|rewrite serve_toggle_missing by done; by left].
    erewrite serve_toggle_found by done. do 4 right. eauto.
Qed.

Lemma step_has_time s s' : step s s' → ∃ now now', step_at now now' s s'.
Proof.
  destruct 1 as [request s|now now' request s|now request pk s|request pk s
                |now request pk s].
  - exists 0, 0. constructor.
  - exists now, now'. constructor.
  - exists now, 0. constructor.
  - exists 0, 0. constructor.
  - exists now, 0. constructor.
Qed.

(** A key in use after one request was in use before or is new, above the
    sequence; a key kept by the request keeps its [created_at]; the
    sequence never goes down. *)
Lemma step_keys s s' :
  store_wf s → step s s' →
  last_id s <= last_id s'
  ∧ ∀ pk row', rows s' !! pk = Some row' →
      last_id s < pk
      ∨ ∃ row, rows s !! pk = Some row
               ∧ row_created_at row' = row_created_at row.
Proof.
  intros Hwf Hstep. apply step_has_time in Hstep as (now & now' & Hstep).
  apply step_at_shapes in Hstep.
  destruct Hstep as [->|[(request & _ & ->)|[(request & k & row & Hk & _ & ->)
    |[(k & row & Hk & ->)|(k & row & Hk & ->)]]]]; simpl.
  - split; [lia|]. eauto.
  - split; [lia|]. intros pk row' Hpk.
    destruct (decide (pk = last_id s + 1)) as [->|Hne]; [left; lia|].
    rewrite lookup_insert_ne in Hpk by done. eauto.
  - split; [lia|]. intros pk row' Hpk.
    destruct (decide (pk = k)) as [->|Hne].
    + rewrite lookup_insert_eq in Hpk. simplify_eq. eauto.
    + rewrite lookup_insert_ne in Hpk by done. eauto.
  - split; [lia|]. intros pk row' Hpk.
    destruct (decide (pk = k)) as [->|Hne];
      [by rewrite lookup_delete_eq in Hpk|].
    rewrite lookup_delete_ne in Hpk by done. eauto.
  - split; [lia|]. intros pk row' Hpk.
    destruct (decide (pk = k)) as [->|Hne].
    + rewrite lookup_insert_eq in Hpk. simplify_eq. eauto.
    + rewrite lookup_insert_ne in Hpk by done. eauto.
Qed.

Lemma run_keys s s' :
  store_wf s → rtc step s s' →
  store_wf s'
  ∧ last_id s <= last_id s'
  ∧ ∀ pk row', rows s' !! pk = Some row' →
      last_id s < pk
      ∨ ∃ row, rows s !! pk = Some row
               ∧ row_created_at row' = row_created_at row.
Proof.
  intros Hwf. revert s'. apply rtc_ind_r.
  - split; [done|]. split; [lia|]. eauto.
  - intros s1 s2 _ Hstep (Hwf1 & Hle & Hkeys).
    destruct (step_keys s1 s2 Hwf1 Hstep) as [Hle' Hkeys'].
    split; [by eapply step_store_wf|]. split; [lia|].
    intros pk row2 Hpk.
    destruct (Hkeys' pk row2 Hpk) as [?|(row1 & Hpk1 & Heq)]; [left; lia|].
    destruct (Hkeys pk row1 Hpk1) as [?|(row & Hpk0 & Heq0)]; [by left|].
    right. exists row. split; [done|congruence].
Qed.

(** X8. Ids are never used again: an id at or below the key sequence that
    has no record (it was deleted) has no record after any run of
    requests. *)
Theorem ids_never_reused s s' pk :
  store_wf s → rtc step s s' →
  pk <= last_id s → rows s !! pk = None →
  rows s' !! pk = None.
Proof.
  intros Hwf Hrun Hle Hnone.
  destruct (run_keys s s' Hwf Hrun) as (_ & _ & Hkeys).
  destruct (rows s' !! pk) as [row'|] eqn:Hpk; [|done].
  destruct (Hkeys pk row' Hpk) as [?|(row & Hrow & _)]; [lia|congruence].
Qed.

(** X9. [created_at] is written once: whatever requests are served, a
    record that is still stored under its id has the [created_at] it had. *)
Theorem created_at_never_changes s s' pk row row' :
  store_wf s → rtc step s s' →
  rows s !! pk = Some row → rows s' !! pk = Some row' →
  row_created_at row' = row_created_at row.
Proof.
  intros Hwf Hrun Hrow Hrow'.
  destruct (run_keys s s' Hwf Hrun) as (_ & _ & Hkeys).
  destruct (Hkeys pk row' Hrow') as [Hlt|(row0 & Hrow0 & Heq)].
  - assert (pk <= last_id s) by (apply Hwf; eauto). lia.
  - congruence.
Qed.

End runs.

(** ** Titles and timestamps along a run *)

Section stored.

Implicit Types (s : Store) (request : HttpRequest) (now pk : Z).

(** Looking [pk] up after a write or a removal at [k]. *)
Ltac lookup_cases pk k Hpk :=
  destruct (decide (pk = k)) as [->|?];
  [ rewrite ?lookup_insert_eq, ?lookup_delete_eq in Hpk
  | rewrite ?lookup_insert_ne, ?lookup_delete_ne in Hpk by done ];
  simplify_eq; simpl.

Lemma submitted_title_stripped request :
  strip (submitted_title request) = submitted_title request.
Proof. unfold submitted_title. apply strip_idemp. Qed.

(** X10. Stored titles stay trimmed: if every stored title is non-empty
    and neither starts nor ends with whitespace (it is its own [strip]),
    this is still so after one request to any handler. *)
Theorem titles_stay_trimmed s s' :
  titles_trimmed s → step s s' → titles_trimmed s'.
Proof.
  intros Hok Hstep. apply step_has_time in Hstep as (now & now' & Hstep).
  apply step_at_shapes in Hstep.
  destruct Hstep as [->|[(request & Ht & ->)|[(request & k & row & Hk & Ht & ->)
    |[(k & row & Hk & ->)|(k & row & Hk & ->)]]]]; [done|..];
    intros pk r Hpk; simpl in *.
  - destruct (decide (pk = last_id s + 1)) as [->|Hne].
    + rewrite lookup_insert_eq in Hpk. simplify_eq. simpl.
      split; [done|apply submitted_title_stripped].
    + rewrite lookup_insert_ne in Hpk by done. by eapply Hok.
  - destruct (decide (pk = k)) as [->|Hne].
    + rewrite lookup_insert_eq in Hpk. simplify_eq. simpl.
      split; [done|apply submitted_title_stripped].
    + rewrite lookup_insert_ne in Hpk by done. by eapply Hok.
  - destruct (decide (pk = k)) as [->|Hne];
      [by rewrite lookup_delete_eq in Hpk|].
    rewrite lookup_delete_ne in Hpk by done. by eapply Hok.
  - destruct (decide (pk = k)) as [->|Hne].
    + rewrite lookup_insert_eq in Hpk. simplify_eq. simpl. by eapply Hok.
    + rewrite lookup_insert_ne in Hpk by done. by eapply Hok.
Qed.

(** X11. With a clock that does not run backwards, no row is ever updated
    before it was created: if this holds of the table, no row was created
    after the first reading [now] of a request, and the second reading
    [now'] of the request is not before the first, both still hold after
    the request, whichever handler serves it. *)
Theorem updated_never_before_created now now' s s' :
  times_ok s → created_by now s → now <= now' →
  step_at now now' s s' →
  times_ok s' ∧ created_by now s'.
Proof.
  intros Hok Hby Hclock Hstep. apply step_at_shapes in Hstep.
  destruct Hstep as [->|[(request & Ht & ->)|[(request & k & row & Hk & Ht & ->)
    |[(k & row & Hk & ->)|(k & row & Hk & ->)]]]]; [done|..];
    split; intros pk r Hpk; simpl in *.
  - lookup_cases pk (last_id s + 1) Hpk; [lia|by eapply Hok].
  - lookup_cases pk (last_id s + 1) Hpk; [lia|by eapply Hby].
  - lookup_cases pk k Hpk; [by eapply Hby|by eapply Hok].
  - lookup_cases pk k Hpk; by eapply Hby.
  - lookup_cases pk k Hpk. by eapply Hok.
  - lookup_cases pk k Hpk. by eapply Hby.
  - lookup_cases pk k Hpk; [by eapply Hby|by eapply Hok].
  - lookup_cases pk k Hpk; by eapply Hby.
Qed.

End stored.

(** ** More on update *)

Section more_update.

Implicit Types (s : Store) (request : HttpRequest) (now pk : Z).

Lemma resubmit_reads (row : Row) :
  submitted_title (resubmit row) = strip (row_title row)
  ∧ submitted_completed (resubmit row) = row_completed row.
Proof. unfold resubmit. by destruct (row_completed row). Qed.

(** X12. Saving the edit form unchanged keeps the record: when the stored
    title is non-empty and trimmed, posting the stored title, with the
    checkbox ticked exactly when the record is completed, leaves the title
    and [completed] as they were and only refreshes [updated_at]. *)
Theorem resubmit_keeps_record now pk s row :
  rows s !! pk = Some row →
  row_title row ≠ [] →
  strip (row_title row) = row_title row →
  rows (store_after (todo_update now (resubmit row) pk) s) !! pk
    = Some {| row_title := row_title row;
              row_completed := row_completed row;
              row_created_at := row_created_at row;
              row_updated_at := now |}
  ∧ outcome_of (todo_update now (resubmit row) pk) s
      = Done (Redirect "todos:todo_list").
Proof.
  intros Hpk Hne Htrim.
  destruct (resubmit_reads row) as [Htitle Hcompleted].
  rewrite Htrim in Htitle.
  unfold store_after, outcome_of.
  erewrite serve_update_valid; [|done|done|congruence]. simpl.
  by rewrite lookup_insert_eq, Htitle, Hcompleted.
Qed.

(** X13. A successful update touches one row only: every other row, the
    set of ids, the number of rows and the key sequence are as before, and
    the reply is a redirect with one success message containing
    "updated successfully". *)
Theorem update_frame now request pk s row :
  rows s !! pk = Some row →
  method request = "POST" →
  submitted_title request ≠ [] →
  let s' := store_after (todo_update now request pk) s in
  (∀ pk', pk' ≠ pk → rows s' !! pk' = rows s !! pk')
  ∧ dom (rows s') = dom (rows s)
  ∧ size (rows s') = size (rows s)
  ∧ last_id s' = last_id s
  ∧ outcome_of (todo_update now request pk) s
      = Done (Redirect "todos:todo_list")
  ∧ (∃ m, notices_of (todo_update now request pk) s = [m]
          ∧ level m = SUCCESS
          ∧ contains (lit "updated successfully") (text m) = true).
Proof.
  intros Hpk Hm Ht s'. subst s'. unfold store_after, notices_of, outcome_of.
  erewrite serve_update_valid by done. simpl.
  assert (Hdom : dom (<[pk := edited now request row]> (rows s))
                 = dom (rows s)) by (apply dom_insert_lookup_L; eauto).
  split_and!; try done.
  - intros pk' Hne. by rewrite lookup_insert_ne.
  - rewrite <- !size_dom. unfold edited in Hdom. by rewrite Hdom.
  - eexists. split_and!; reflexivity.
Qed.

End more_update.

(** ** More on the list view *)

Section more_listing.

Implicit Types (s : Store) (request : HttpRequest) (now pk : Z).

Lemma to_row_from_db (entry : Z * Row) : to_row (from_db entry) = entry.2.
Proof. by destruct entry as [k []]. Qed.

Lemma from_db_to_row (todo : Todo) : from_db (id todo, to_row todo) = todo.
Proof. by destruct todo. Qed.

Lemma elem_of_todos (m : gmap Z Row) (todo : Todo) :
  todo ∈ from_db <$> map_to_list m ↔ m !! id todo = Some (to_row todo).
Proof.
  rewrite list_elem_of_fmap. split.
  - intros ([k r] & -> & Hin). apply elem_of_map_to_list in Hin.
    by rewrite to_row_from_db.
  - intros Hin. exists (id todo, to_row todo).
    split; [by rewrite from_db_to_row|by apply elem_of_map_to_list].
Qed.

Lemma ids_of_todos (m : gmap Z Row) :
  id <$> (from_db <$> map_to_list m) = (map_to_list m).*1.
Proof. rewrite <- list_fmap_compose. by apply list_fmap_ext. Qed.

(** X14. The list view shows the table as it is: for any request, the
    page lists exactly the stored records, each once (as many todos as
    rows, no id twice, a todo is listed exactly when its row is stored
    under its id); it answers 200, changes nothing and queues no message.
    On the empty table the list is empty. *)
Theorem list_shows_each_once request s :
  let todos := listed (outcome_of (todo_list request) s) in
  outcome_of (todo_list request) s
    = Done (Render "todos/todo_list.html" [("todos", VTodos todos)])
  ∧ length todos = size (rows s)
  ∧ NoDup (id <$> todos)
  ∧ (∀ todo, todo ∈ todos ↔ rows s !! id todo = Some (to_row todo))
  ∧ (rows s = ∅ → todos = [])
  ∧ status_code (outcome_of (todo_list request) s) = 200
  ∧ store_after (todo_list request) s = s
  ∧ notices_of (todo_list request) s = [].
Proof.
  unfold store_after, notices_of, outcome_of. rewrite serve_list. simpl.
  split_and!; try done.
  - by rewrite merge_sort_Permutation, length_fmap, length_map_to_list.
  - rewrite merge_sort_Permutation, ids_of_todos.
    apply NoDup_fst_map_to_list.
  - intros todo. rewrite merge_sort_Permutation. apply elem_of_todos.
  - intros ->. by rewrite map_to_list_empty.
Qed.

End more_listing.

(** ** How requests compose *)

Section composition.

Implicit Types (s : Store) (request : HttpRequest) (now pk : Z).

Lemma alter_found (g : Row → Row) (m : gmap Z Row) pk row :
  m !! pk = Some row → <[pk := g row]> m = alter g pk m.
Proof.
  intros Hpk. apply map_eq. intros k. rewrite lookup_alter.
  destruct (decide (pk = k)) as [->|Hne].
  - by rewrite lookup_insert_eq, Hpk.
  - by rewrite lookup_insert_ne.
Qed.

Lemma store_eta s : {| rows := rows s; last_id := last_id s |} = s.
Proof. by destruct s. Qed.

(** The table after a toggle, an update and a delete. *)
Lemma store_after_toggle now request pk s :
  store_after (todo_toggle now request pk) s
    = {| rows := alter (toggled now) pk (rows s); last_id := last_id s |}.
Proof.
  unfold store_after. destruct (rows s !! pk) as [row|] eqn:Hpk.
  - erewrite serve_toggle_found by done. simpl.
    by rewrite <- (alter_found (toggled now) _ _ row).
  - rewrite serve_toggle_missing by done. simpl.
    by rewrite alter_id', store_eta.
Qed.

Lemma store_after_update now request pk s :
  store_after (todo_update now request pk) s
    = if bool_decide (method request = "POST"
                      ∧ submitted_title request ≠ [])
      then {| rows := alter (edited now request) pk (rows s);
              last_id := last_id s |}
      else s.
Proof.
  unfold store_after. destruct (rows s !! pk) as [row|] eqn:Hpk.
  - case_bool_decide as Hvalid.
    + destruct Hvalid. erewrite serve_update_valid by done. simpl.
      by rewrite <- (alter_found (edited now request) _ _ row).
    + destruct (decide (method request = "POST")) as [Hm|Hm];
        [|by erewrite serve_update_get].
      destruct (decide (submitted_title request = [])) as [Ht|Ht];
        [by erewrite serve_update_empty|tauto].
  - rewrite serve_update_missing by done. simpl.
    case_bool_decide; [|done]. by rewrite alter_id', store_eta.
Qed.

Lemma store_after_delete request pk s :
  store_after (todo_delete request pk) s
    = if bool_decide (method request = "POST")
      then {| rows := delete pk (rows s); last_id := last_id s |}
      else s.
Proof.
  unfold store_after. destruct (rows s !! pk) as [row|] eqn:Hpk.
  - case_bool_decide as Hm.
    + by erewrite serve_delete_post.
    + by erewrite serve_delete_get.
  - rewrite serve_delete_missing by done. simpl.
    case_bool_decide; [|done]. by rewrite delete_id, store_eta.
Qed.

(** X15. Titles need not differ: posting the same valid create form twice
    stores two records with that title, under two consecutive new ids,
    each with the two clock readings of its own request as [created_at]
    and [updated_at]. *)
Theorem create_allows_duplicates now1 now1' now2 now2' request s :
  store_wf s →
  method request = "POST" → submitted_title request ≠ [] →
  let s1 := store_after (todo_create now1 now1' request) s in
  let s2 := store_after (todo_create now2 now2' request) s1 in
  rows s2 !! (last_id s + 1)
    = Some (mkRow (submitted_title request) false now1 now1')
  ∧ rows s2 !! (last_id s + 2)
    = Some (mkRow (submitted_title request) false now2 now2')
  ∧ size (rows s2) = S (S (size (rows s))).
Proof.
  intros Hwf Hm Ht s1 s2. subst s2 s1. unfold store_after.
  rewrite (serve_create_valid now1 now1') by done. simpl.
  rewrite (serve_create_valid now2 now2') by done. simpl.
  replace (last_id s + 1 + 1) with (last_id s + 2) by lia.
  assert (Hfresh2 : rows s !! (last_id s + 2) = None).
  { destruct (rows s !! (last_id s + 2)) eqn:E; [|done].
    assert (last_id s + 2 <= last_id s) by (apply Hwf; eauto). lia. }
  split_and!.
  - rewrite lookup_insert_ne by lia. apply lookup_insert_eq.
  - apply lookup_insert_eq.
  - rewrite map_size_insert_None.
    + by rewrite map_size_insert_None by by apply store_wf_fresh.
    + by rewrite lookup_insert_ne by lia.
Qed.

(** X16. Deleting what was just created gives the rows back: after a
    valid create POST and a delete POST on the new id the rows are those
    before the create, while the key sequence stays advanced, so the next
    create takes another id. *)
Theorem delete_undoes_create now now' request request' s :
  store_wf s →
  method request = "POST" → submitted_title request ≠ [] →
  method request' = "POST" →
  let s1 := store_after (todo_create now now' request) s in
  let s2 := store_after (todo_delete request' (last_id s + 1)) s1 in
  rows s2 = rows s ∧ last_id s2 = last_id s + 1.
Proof.
  intros Hwf Hm Ht Hm' s1 s2. subst s2 s1.
  rewrite store_after_delete, bool_decide_eq_true_2 by done.
  unfold store_after. rewrite serve_create_valid by done. simpl.
  split; [|done]. apply delete_insert_id. by apply store_wf_fresh.
Qed.

(** X17. The last successful update wins: after a valid update POST on
    an existing record the table is the same whether or not an update or a
    toggle of that record, of any kind, was served just before. *)
Theorem last_update_wins now1 now2 request1 request2 pk s :
  method request2 = "POST" → submitted_title request2 ≠ [] →
  store_after (todo_update now2 request2 pk)
    (store_after (todo_update now1 request1 pk) s)
    = store_after (todo_update now2 request2 pk) s
  ∧ store_after (todo_update now2 request2 pk)
      (store_after (todo_toggle now1 request1 pk) s)
    = store_after (todo_update now2 request2 pk) s.
Proof.
  intros Hm Ht.
  rewrite !(store_after_update now2), !bool_decide_eq_true_2 by done.
  rewrite store_after_update, store_after_toggle.
  split; [case_bool_decide; [|done]|]; simpl; f_equal;
    rewrite alter_alter_eq; by apply alter_ext.
Qed.


End composition.

(** ** The list view after an edit *)

Section list_after_edit.

Implicit Types (s : Store) (request : HttpRequest) (now pk : Z).

Lemma stored_is_listed (m : gmap Z Row) pk row :
  m !! pk = Some row → from_db (pk, row) ∈ from_db <$> map_to_list m.
Proof.
  intros Hpk. apply list_elem_of_fmap_2. by apply elem_of_map_to_list.
Qed.

Lemma elem_of_altered (g : Row → Row) (m : gmap Z Row) pk (todo : Todo) :
  todo ∈ from_db <$> map_to_list (alter g pk m)
  ↔ todo ∈ on_instance g pk <$> (from_db <$> map_to_list m).
Proof.
  rewrite elem_of_todos, list_elem_of_fmap, lookup_alter. split.
  - intros Hin. case_decide as Hk.
    + destruct (m !! pk) as [row|] eqn:Hpk; [|done]. injection Hin as Hin.
      exists (from_db (pk, row)). split; [|by apply stored_is_listed].
      unfold on_instance. rewrite to_row_from_db. simpl.
      rewrite decide_True by done. rewrite Hin, Hk.
      by rewrite from_db_to_row.
    + exists todo. split; [|by apply elem_of_todos].
      unfold on_instance. by rewrite decide_False by congruence.
  - intros (todo0 & -> & Hin). apply elem_of_todos in Hin.
    unfold on_instance. destruct (decide (id todo0 = pk)) as [Hk0|Hk0].
    + rewrite to_row_from_db. simpl. rewrite decide_True by done.
      by rewrite <- Hk0, Hin.
    + by rewrite decide_False by congruence.
Qed.

Lemma ids_on_instance (g : Row → Row) pk (l : list Todo) :
  id <$> (on_instance g pk <$> l) = id <$> l.
Proof.
  rewrite <- list_fmap_compose. apply list_fmap_ext. intros _ todo _. simpl.
  unfold on_instance. by case_decide.
Qed.

Lemma altered_lookup (g : Row → Row) (m : gmap Z Row) pk (todo : Todo) :
  (∀ row, row_created_at (g row) = row_created_at row) →
  alter g pk m !! id todo = Some (to_row todo) →
  ∃ row, m !! id todo = Some row ∧ row_created_at row = created_at todo.
Proof.
  intros Hg. rewrite lookup_alter.
  destruct (decide (pk = id todo)) as [<-|Hk];
    [|intros Hin; by exists (to_row todo)].
  destruct (m !! pk) as [row|]; [|done]. intros Hin. injection Hin as Hin.
  exists row. split; [done|]. by rewrite <- (Hg row), Hin.
Qed.

(** Changing one row without touching its [created_at] changes the listed
    instance in place. *)
Lemma listing_alter (g : Row → Row) (m : gmap Z Row) pk :
  (∀ row, row_created_at (g row) = row_created_at row) →
  (∀ pk1 pk2 row1 row2, m !! pk1 = Some row1 → m !! pk2 = Some row2 →
     row_created_at row1 = row_created_at row2 → pk1 = pk2) →
  merge_sort newest_first (from_db <$> map_to_list (alter g pk m))
  = on_instance g pk
      <$> merge_sort newest_first (from_db <$> map_to_list m).
Proof.
  intros Hg Hdistinct.
  assert (Hkeep : ∀ todo, created_at (on_instance g pk todo) = created_at todo).
  { intros todo. unfold on_instance. case_decide; [|done]. simpl. apply Hg. }
  assert (Hperm : from_db <$> map_to_list (alter g pk m)
                  ≡ₚ on_instance g pk <$> (from_db <$> map_to_list m)).
  { apply NoDup_Permutation.
    - apply (NoDup_fmap_1 id). rewrite ids_of_todos.
      apply NoDup_fst_map_to_list.
    - apply (NoDup_fmap_1 id). rewrite ids_on_instance, ids_of_todos.
      apply NoDup_fst_map_to_list.
    - apply elem_of_altered. }
  apply (StronglySorted_unique_strong newest_first).
  - intros x y Hx Hy Hxy Hyx.
    rewrite merge_sort_Permutation in Hx, Hy. rewrite <- Hperm in Hy.
    apply elem_of_todos in Hx, Hy.
    destruct (altered_lookup g m pk x Hg Hx) as (rx & Hrx & Hcx).
    destruct (altered_lookup g m pk y Hg Hy) as (ry & Hry & Hcy).
    assert (Hid : id x = id y).
    { eapply Hdistinct; [done..|]. unfold newest_first in *. lia. }
    assert (Hrow : to_row x = to_row y) by (rewrite Hid in Hx; congruence).
    transitivity (from_db (id x, to_row x)); [by rewrite from_db_to_row|].
    rewrite Hid, Hrow. apply from_db_to_row.
  - apply objects_all_sorted.
  - apply (StronglySorted_fmap (on_instance g pk) newest_first).
    + intros x y. unfold newest_first. by rewrite !Hkeep.
    + apply objects_all_sorted.
  - by rewrite !merge_sort_Permutation.
Qed.

(** X19. Editing does not reorder the list: when no two records were
    created at the same clock reading, the list view shows the ids in the
    same order after a toggle or an update of any record as before it
    (the list is ordered by [created_at], which neither touches). *)
Theorem edits_keep_list_order now request request' pk s :
  distinct_created s →
  id <$> listed (outcome_of (todo_list request')
                   (store_after (todo_toggle now request pk) s))
    = id <$> listed (outcome_of (todo_list request') s)
  ∧ id <$> listed (outcome_of (todo_list request')
                     (store_after (todo_update now request pk) s))
      = id <$> listed (outcome_of (todo_list request') s).
Proof.
  intros Hdistinct. unfold outcome_of.
  rewrite store_after_toggle, store_after_update, !serve_list.
  split.
  - simpl. rewrite listing_alter by done. apply ids_on_instance.
  - case_bool_decide; [|done]. simpl.
    rewrite listing_alter by done. apply ids_on_instance.
Qed.

End list_after_edit.

(** ** More worked examples *)

Section more_examples.

Lemma two_todos_rows :
  rows two_todos
  = <[2 := mkRow (lit "Call home") false 20 21]>
      (<[1 := mkRow (lit "Buy milk") false 10 11]> ∅).
Proof. vm_compute. reflexivity. Qed.

Lemma two_todos_reachable : rtc step empty_store two_todos.
Proof.
  apply (rtc_l _ _ (store_after
                      (todo_create 10 11 (create_request (lit "  Buy milk  ")))
                      empty_store)); [apply step_create|].
  apply rtc_once.
  exact (step_create 20 21 (create_request (lit "Call home")) _).
Qed.

Lemma two_todos_wf : store_wf two_todos.
Proof. apply reachable_wf, two_todos_reachable. Qed.

Lemma two_todos_distinct : distinct_created two_todos.
Proof.
  intros pk1 pk2 row1 row2. rewrite two_todos_rows.
  destruct (decide (pk1 = 2)) as [->|?], (decide (pk2 = 2)) as [->|?];
    rewrite ?lookup_insert_eq; rewrite ?lookup_insert_ne by done;
    try done.
  - destruct (decide (pk2 = 1)) as [->|?];
      rewrite ?lookup_insert_eq; rewrite ?lookup_insert_ne by done;
      rewrite ?lookup_empty; intros; by simplify_eq.
  - destruct (decide (pk1 = 1)) as [->|?];
      rewrite ?lookup_insert_eq; rewrite ?lookup_insert_ne by done;
      rewrite ?lookup_empty; intros; by simplify_eq.
  - destruct (decide (pk1 = 1)) as [->|?], (decide (pk2 = 1)) as [->|?];
      rewrite ?lookup_insert_eq; rewrite ?lookup_insert_ne by done;
      rewrite ?lookup_empty; intros; by simplify_eq.
Qed.

Lemma delete_removes_record_witness :
  rows (store_after (todo_delete (mkRequest "POST" []) 1) two_todos) !! 1
    = None
  ∧ outcome_of (todo_delete (mkRequest "POST" []) 1) two_todos
    = Done (Redirect "todos:todo_list").
Proof.
  destruct (delete_removes_record (mkRequest "POST" []) 1 two_todos _
              two_todos_first eq_refl)
    as (Hgone & _ & _ & _ & _ & Hout).
  split; [exact Hgone|exact Hout].
Defined.

Lemma deleted_id_is_gone_witness :
  outcome_of (todo_toggle 40 (mkRequest "GET" []) 1)
    (store_after (todo_delete (mkRequest "POST" []) 1) two_todos)
  = Http404.
Proof.
  destruct (deleted_id_is_gone 40 (mkRequest "POST" []) (mkRequest "GET" [])
              1 two_todos _ two_todos_first eq_refl)
    as (_ & _ & Htoggle & _).
  exact Htoggle.
Defined.

Lemma delete_asks_first_witness :
  store_after (todo_delete (mkRequest "GET" []) 1) two_todos = two_todos.
Proof.
  assert (Hm : method (mkRequest "GET" []) ≠ "POST") by done.
  destruct (delete_asks_first (mkRequest "GET" []) 1 two_todos _
              two_todos_first Hm)
    as (_ & _ & Hstore & _).
  exact Hstore.
Defined.


(** The reply to a create form with a blank title has one of the three
    shapes. *)
Lemma reply_shapes_witness :
  let r := serve (todo_create 30 31 (create_request (lit "   "))) two_todos in
  (r.1 = Http404 ∧ store r.2 = two_todos ∧ messages r.2 = [])
  ∨ ((∃ template context, r.1 = Done (Render template context))
     ∧ store r.2 = two_todos
     ∧ (messages r.2 = []
        ∨ messages r.2 = [mkMessage ERROR (lit "Title cannot be empty!")]))
  ∨ (r.1 = Done (Redirect "todos:todo_list")
     ∧ ∃ m, messages r.2 = [m] ∧ level m = SUCCESS).
Proof.
  exact (reply_shapes two_todos _
           (served_create 30 31 (create_request (lit "   ")) two_todos)).
Defined.

(** The first todo is deleted, then another is created: id 1 stays free. *)
Lemma ids_never_reused_witness :
  rows (store_after (todo_create 50 51 (create_request (lit "Walk dog")))
          (store_after (todo_delete (mkRequest "POST" []) 1) two_todos)) !! 1
  = None.
Proof.
  apply (ids_never_reused
           (store_after (todo_delete (mkRequest "POST" []) 1) two_todos)).
  - apply (step_store_wf two_todos); [apply two_todos_wf|apply step_delete].
  - apply rtc_once, step_create.
  - by vm_compute.
  - vm_compute. reflexivity.
Defined.

(** The first todo is edited, then toggled. *)
Lemma created_at_never_changes_witness :
  rows (store_after (todo_toggle 40 (mkRequest "GET" []) 1)
          (store_after
             (todo_update 30
                (mkRequest "POST" [(lit "title", lit "Buy oat milk")]) 1)
             two_todos)) !! 1
    = Some (mkRow (lit "Buy oat milk") true 10 40)
  ∧ row_created_at (mkRow (lit "Buy oat milk") true 10 40)
    = row_created_at (mkRow (lit "Buy milk") false 10 11).
Proof.
  assert (Hrow' :
    rows (store_after (todo_toggle 40 (mkRequest "GET" []) 1)
            (store_after
               (todo_update 30
                  (mkRequest "POST" [(lit "title", lit "Buy oat milk")]) 1)
               two_todos)) !! 1
    = Some (mkRow (lit "Buy oat milk") true 10 40))
    by (vm_compute; reflexivity).
  split; [exact Hrow'|].
  apply (created_at_never_changes two_todos
           (store_after (todo_toggle 40 (mkRequest "GET" []) 1)
              (store_after
                 (todo_update 30
                    (mkRequest "POST" [(lit "title", lit "Buy oat milk")]) 1)
                 two_todos))
           1 _ _ two_todos_wf); [|apply two_todos_first|exact Hrow'].
  eapply rtc_l; [apply step_update|]. apply rtc_once, step_toggle.
Defined.

Lemma titles_stay_trimmed_witness :
  titles_trimmed
    (store_after (todo_create 10 11 (create_request (lit "  Buy milk  ")))
       empty_store).
Proof.
  apply (titles_stay_trimmed empty_store).
  - intros pk row Hrow. simpl in Hrow. by rewrite lookup_empty in Hrow.
  - apply step_create.
Defined.

Lemma updated_never_before_created_witness :
  times_ok
    (store_after (todo_create 10 11 (create_request (lit "  Buy milk  ")))
       empty_store).
Proof.
  apply (updated_never_before_created 10 11 empty_store).
  - intros pk row Hrow. simpl in Hrow. by rewrite lookup_empty in Hrow.
  - intros pk row Hrow. simpl in Hrow. by rewrite lookup_empty in Hrow.
  - lia.
  - apply step_at_create.
Defined.

Lemma resubmit_keeps_record_witness :
  rows (store_after
          (todo_update 30 (resubmit (mkRow (lit "Buy milk") false 10 11)) 1)
          two_todos) !! 1
  = Some (mkRow (lit "Buy milk") false 10 30).
Proof.
  assert (Hne : row_title (mkRow (lit "Buy milk") false 10 11) ≠ [])
    by (by vm_compute).
  destruct (resubmit_keeps_record 30 1 two_todos _ two_todos_first Hne eq_refl)
    as (Hrow & _).
  exact Hrow.
Defined.

Lemma update_frame_witness :
  rows (store_after
          (todo_update 30
             (mkRequest "POST" [(lit "title", lit "Buy oat milk")]) 1)
          two_todos) !! 2
  = rows two_todos !! 2.
Proof.
  assert (Hne : submitted_title
                  (mkRequest "POST" [(lit "title", lit "Buy oat milk")])
                ≠ []) by (by vm_compute).
  destruct (update_frame 30
              (mkRequest "POST" [(lit "title", lit "Buy oat milk")])
              1 two_todos _ two_todos_first eq_refl Hne)
    as (Hothers & _).
  apply Hothers. lia.
Defined.

Lemma delete_undoes_create_witness :
  rows (store_after (todo_delete (mkRequest "POST" []) 3)
          (store_after (todo_create 30 31 (create_request (lit "Walk dog")))
             two_todos))
  = rows two_todos.
Proof.
  assert (Hne : submitted_title (create_request (lit "Walk dog")) ≠ [])
    by (by vm_compute).
  destruct (delete_undoes_create 30 31 (create_request (lit "Walk dog"))
              (mkRequest "POST" []) two_todos two_todos_wf eq_refl Hne eq_refl)
    as (Hrows & _).
  exact Hrows.
Defined.

Lemma last_update_wins_witness :
  store_after
    (todo_update 40 (mkRequest "POST" [(lit "title", lit "Buy oat milk")]) 1)
    (store_after (todo_toggle 30 (mkRequest "GET" []) 1) two_todos)
  = store_after
      (todo_update 40 (mkRequest "POST" [(lit "title", lit "Buy oat milk")]) 1)
      two_todos.
Proof.
  assert (Hne : submitted_title
                  (mkRequest "POST" [(lit "title", lit "Buy oat milk")])
                ≠ []) by (by vm_compute).
  destruct (last_update_wins 30 40 (mkRequest "GET" [])
              (mkRequest "POST" [(lit "title", lit "Buy oat milk")])
              1 two_todos eq_refl Hne)
    as (_ & Htoggle).
  exact Htoggle.
Defined.


Lemma edits_keep_list_order_witness :
  id <$> listed (outcome_of (todo_list (mkRequest "GET" []))
                   (store_after (todo_toggle 30 (mkRequest "GET" []) 1)
                      two_todos))
  = id <$> listed (outcome_of (todo_list (mkRequest "GET" [])) two_todos).
Proof.
  destruct (edits_keep_list_order 30 (mkRequest "GET" [])
              (mkRequest "GET" []) 1 two_todos two_todos_distinct)
    as (Htoggle & _).
  exact Htoggle.
Defined.

Lemma create_allows_duplicates_witness :
  size (rows (store_after (todo_create 40 41 (create_request (lit "Call home")))
                (store_after (todo_create 30 31 (create_request (lit "Call home")))
                   two_todos)))
  = S (S (size (rows two_todos))).
Proof.
  assert (Hne : submitted_title (create_request (lit "Call home")) ≠ [])
    by (by vm_compute).
  destruct (create_allows_duplicates 30 31 40 41 (create_request (lit "Call home"))
              two_todos two_todos_wf eq_refl Hne)
    as (_ & _ & Hsize).
  exact Hsize.
Defined.

End more_examples.
